(** * Dallas crime map: a shallow embedding of
      [src/visualization/visualize_police_incidents_map.py]

    The development follows the order of the Python module:

    - [Numeric]   Python's numbers: an interface with two readings, IEEE
                  binary64 (what CPython computes) and exact rationals
                  (what the formulas mean);
    - [Marker]    [scale_marker_size], the closure of [create_incident_map];
    - [Colors]    [generate_colors_for_incident_types] with [colorsys];
    - [Frame]     the incident rows and the pandas operations used on them;
    - [Aggregate] [filter_for_burglary_property_incidents] and
                  [prepare_map_data];
    - [Cache]     [save_coordinates_cache] / [load_coordinates_cache];
    - [Geocode]   [geocode_zip_code], [create_zip_coordinates_cache], [main],
                  over an explicit world (cache file, effect trace);
    - [Pipeline]  the vocabulary in which the properties are stated;
    - [Render]    the markers that [create_incident_map] builds.

    Conventions. Integers are [Z]: the counts of the data set and their sums
    are far inside the 64-bit range of a pandas integer column, where numpy
    arithmetic is exact.  [print] calls are not modelled: they do not
    influence any value or any other effect. *)

From Stdlib Require Import ZArith QArith Qround Floats Lia Lqa Sorted.
From Stdlib Require Import Ascii String DecimalString DecimalZ HexadecimalString.
From stdpp Require Import base option list gmap strings.

Set Warnings "-inexact-float,-register-all".
#[local] Open Scope Z_scope.

(* ===================================================================== *)
(** ** Numbers *)
(* ===================================================================== *)

Module Numeric.

(** What the module asks of Python's [float]: conversion from [int], decimal
    literals, the four operations, [x % 1.0], [==] and [int(x)].  [int(x)]
    raises on an infinity or a NaN, hence [option]. *)
Class FloatLike (F : Type) := {
  of_Z   : Z -> F;
  lit    : Q -> F;
  fadd   : F -> F -> F;
  fsub   : F -> F -> F;
  fmul   : F -> F -> F;
  fdiv   : F -> F -> F;
  fmod1  : F -> F;
  feqb   : F -> F -> bool;
  ftrunc : F -> option Z
}.

(** Truncation towards zero, as [int()] does on a float. *)
Definition Qtrunc (q : Q) : Z := Z.quot (Qnum q) (Zpos (Qden q)).

(** Exact reading: every operation is the mathematical one. *)
#[export] Instance exact : FloatLike Q := {|
  of_Z   := inject_Z;
  lit    := fun q => q;
  fadd   := Qplus;
  fsub   := Qminus;
  fmul   := Qmult;
  fdiv   := Qdiv;
  fmod1  := fun q => Qminus q (inject_Z (Qfloor q));
  feqb   := Qeq_bool;
  ftrunc := fun q => Some (Qtrunc q)
|}.

(** The integer a finite binary64 value truncates to, read off its sign,
    mantissa and exponent. *)
Definition b64_trunc (x : float) : option Z :=
  match Prim2SF x with
  | S754_zero _ => Some 0
  | S754_finite s m e =>
      let v := match e with
               | Zneg p => Z.shiftr (Zpos m) (Zpos p)
               | _ => Z.shiftl (Zpos m) e
               end in
      Some (if s then - v else v)
  | S754_infinity _ | S754_nan => None
  end.

(** [float(n)] for [|n| < 2^63] (rounded to nearest when [|n| > 2^53]). *)
Definition b64_of_Z (z : Z) : float :=
  match z with
  | Z0 => PrimFloat.zero
  | Zpos _ => PrimFloat.of_uint63 (Uint63.of_Z z)
  | Zneg p => PrimFloat.opp (PrimFloat.of_uint63 (Uint63.of_Z (Zpos p)))
  end.

(** A decimal literal [n/d] with [n], [d] below [2^53]: both convert exactly,
    and the correctly rounded quotient is the float nearest to the literal,
    which is what Python's reader produces. *)
Definition b64_lit (q : Q) : float :=
  PrimFloat.div (b64_of_Z (Qnum q)) (b64_of_Z (Zpos (Qden q))).

(** [x % 1.0]: [fmod(x, 1.0)] is [x] minus its integer part (exact); Python
    then adds [1.0] when the remainder is negative. *)
Definition b64_mod1 (x : float) : float :=
  match b64_trunc x with
  | Some t =>
      let r := PrimFloat.sub x (b64_of_Z t) in
      if PrimFloat.ltb r PrimFloat.zero then PrimFloat.add r PrimFloat.one
      else r
  | None => PrimFloat.nan
  end.

(** Binary64 reading: the kernel's IEEE 754 double precision floats. *)
#[export] Instance binary64 : FloatLike float := {|
  of_Z   := b64_of_Z;
  lit    := b64_lit;
  fadd   := PrimFloat.add;
  fsub   := PrimFloat.sub;
  fmul   := PrimFloat.mul;
  fdiv   := PrimFloat.div;
  fmod1  := b64_mod1;
  feqb   := PrimFloat.eqb;
  ftrunc := b64_trunc
|}.

(** [a / b] on two integers (true division).  [None] stands for a division
    by zero. *)
Definition true_div {F} `{FloatLike F} (a b : Z) : option F :=
  if Z.eqb b 0 then None else Some (fdiv (of_Z a) (of_Z b)).

End Numeric.
Export Numeric.

(* ===================================================================== *)
(** ** Marker sizes *)
(* ===================================================================== *)

Module Marker.

(** [scale_marker_size], lines 247-251.  [min_count] and [max_count] are the
    variables of the enclosing [create_incident_map] that the closure
    captures; they are arguments here. *)
Definition scale_marker_size {F} `{FloatLike F}
    (count min_count max_count : Z) : option F :=
  if Z.eqb max_count min_count then Some (of_Z 15)
  else
    normalized ← true_div (count - min_count) (max_count - min_count);
    Some (fadd (of_Z 5) (fmul normalized (of_Z 25))).

(** The scaler as the specification words it: out-of-range bounds as
    parameters, the midpoint of the bounds when the counts coincide. *)
Definition spec_scale (count min_count max_count : Z) (out_min out_max : Q) : Q :=
  if Z.eqb max_count min_count then (out_min + out_max) / 2
  else out_min + (inject_Z (count - min_count) / inject_Z (max_count - min_count))
                 * (out_max - out_min).

(** The size computed in binary64 lies between 5 and 30. *)
Definition b64_in_bounds (count min_count max_count : Z) : bool :=
  match scale_marker_size (F:=float) count min_count max_count with
  | Some x => (PrimFloat.leb 5 x && PrimFloat.leb x 30)%bool
  | None => false
  end.

End Marker.
Export Marker.

(* ===================================================================== *)
(** ** Colors *)
(* ===================================================================== *)

Module Colors.

#[local] Open Scope string_scope.

(** [colorsys.hsv_to_rgb] of the Python standard library, which the module
    imports: [if s == 0.0: return v, v, v]; [i = int(h*6.0)];
    [f = (h*6.0) - i]; [p = v*(1.0 - s)]; [q = v*(1.0 - s*f)];
    [t = v*(1.0 - s*(1.0-f))]; [i = i%6]; then the six sectors. *)
Definition hsv_to_rgb {F} `{FloatLike F} (h s v : F) : option (F * F * F) :=
  if feqb s (of_Z 0) then Some (v, v, v)
  else
    i ← ftrunc (fmul h (of_Z 6));
    let f := fsub (fmul h (of_Z 6)) (of_Z i) in
    let p := fmul v (fsub (of_Z 1) s) in
    let q := fmul v (fsub (of_Z 1) (fmul s f)) in
    let t := fmul v (fsub (of_Z 1) (fmul s (fsub (of_Z 1) f))) in
    match i mod 6 with
    | 0 => Some (v, t, p)
    | 1 => Some (q, v, p)
    | 2 => Some (p, v, t)
    | 3 => Some (p, q, v)
    | 4 => Some (t, p, v)
    | _ => Some (v, p, q)
    end.

(** ["%02x" % n]: lower-case hexadecimal, zero-padded to two characters. *)
Definition fmt_02x (n : Z) : string :=
  let s := HexadecimalString.NilZero.string_of_int (Z.to_hex_int n) in
  if Nat.ltb (String.length s) 2 then "0" ++ s else s.

(** ["#%02x%02x%02x" % tuple(int(c * 255) for c in rgb)]. *)
Definition hex_of_rgb {F} `{FloatLike F} (rgb : F * F * F) : option string :=
  let '(r, g, b) := rgb in
  r' ← ftrunc (fmul r (of_Z 255));
  g' ← ftrunc (fmul g (of_Z 255));
  b' ← ftrunc (fmul b (of_Z 255));
  Some ("#" ++ fmt_02x r' ++ fmt_02x g' ++ fmt_02x b').

Definition golden_ratio : Q := 618033988749895 # 1000000000000000.

(** Lines 111-114: the hue, saturation and value of index [i]. *)
Definition hue {F} `{FloatLike F} (i : nat) : F :=
  fmod1 (fmul (of_Z (Z.of_nat i)) (lit golden_ratio)).
Definition saturation {F} `{FloatLike F} (i : nat) : F :=
  fadd (lit (7 # 10)) (fmul (of_Z (Z.of_nat i mod 3)) (lit (1 # 10))).
Definition value {F} `{FloatLike F} (i : nat) : F :=
  fadd (lit (8 # 10)) (fmul (of_Z (Z.of_nat i mod 2)) (lit (1 # 10))).

(** Lines 116-117: the body of the first loop, for index [i]. *)
Definition hex_color {F} `{FloatLike F} (i : nat) : option string :=
  rgb ← hsv_to_rgb (hue i) (saturation i) (value i);
  hex_of_rgb rgb.

Definition gray : string := "#808080".

(** The first loop, [for i, incident_type in enumerate(...)], started at
    index [i] with the dictionary [colors]. *)
Fixpoint color_loop {F} `{FloatLike F} (i : nat) (types : list string)
    (colors : gmap string string) : option (gmap string string) :=
  match types with
  | [] => Some colors
  | incident_type :: rest =>
      hex ← hex_color i;
      color_loop (S i) rest (<[incident_type := hex]> colors)
  end.

(** The second loop, [for incident_type in incident_types[max_colors:]]. *)
Definition gray_loop (types : list string) (colors : gmap string string)
    : gmap string string :=
  foldl (fun acc incident_type => <[incident_type := gray]> acc) colors types.

(** [generate_colors_for_incident_types], lines 99-124.  [max_colors] is a
    natural number: the slices [[:max_colors]] and [[max_colors:]] are
    [take] and [drop].  The result is [None] when [int()] raises. *)
Definition generate_colors_for_incident_types {F} `{FloatLike F}
    (incident_types : list string) (max_colors : nat)
    : option (gmap string string) :=
  colors ← color_loop 0 (take max_colors incident_types) ∅;
  Some (gray_loop (drop max_colors incident_types) colors).

(** The index of the last occurrence of [t] in [l]. *)
Fixpoint last_index (t : string) (l : list string) : option nat :=
  match l with
  | [] => None
  | x :: rest =>
      match last_index t rest with
      | Some j => Some (S j)
      | None => if decide (x = t) then Some 0%nat else None
      end
  end.

(** The color of index [i] as the specification words it, in exact
    arithmetic: hue [(i * phi) mod 1], saturation [0.7 + (i mod 3) * 0.1],
    value [0.8 + (i mod 2) * 0.1], then HSV to RGB to hex. *)
Definition spec_color (i : nat) : option string :=
  let n := inject_Z (Z.of_nat i) in
  let h := (n * golden_ratio - inject_Z (Qfloor (n * golden_ratio)))%Q in
  let s := ((7 # 10) + inject_Z (Z.of_nat i mod 3) * (1 # 10))%Q in
  let v := ((8 # 10) + inject_Z (Z.of_nat i mod 2) * (1 # 10))%Q in
  rgb ← hsv_to_rgb (F:=Q) h s v;
  hex_of_rgb rgb.

End Colors.
Export Colors.

(* ===================================================================== *)
(** ** Python values and exceptions *)
(* ===================================================================== *)

Module Py.

#[local] Open Scope string_scope.

(** The exceptions the module can meet.  All derive from [Exception]. *)
Inductive exn :=
  | IndexError | KeyError | TypeError | ValueError | AttributeError
  | OSError | ConnectionError | HTTPError | JSONDecodeError.

(** A computation that returns or raises. *)
Inductive result (A : Type) :=
  | Ok (a : A)
  | Raise (e : exn).
Arguments Ok {A} a.
Arguments Raise {A} e.

#[export] Instance result_ret : MRet result := fun A a => Ok a.
#[export] Instance result_bind : MBind result := fun A B f m =>
  match m with Ok a => f a | Raise e => Raise e end.

(** The objects that [json.load] builds, and the tuple that
    [geocode_zip_code] returns.  A [PyDict] lists its items in order. *)
Inductive pyobj :=
  | PyNone
  | PyBool (b : bool)
  | PyInt (z : Z)
  | PyFloat (x : float)
  | PyStr (s : string)
  | PyList (items : list pyobj)
  | PyTuple (items : list pyobj)
  | PyDict (items : list (string * pyobj)).

(** [v[n]] for a non-negative integer [n]. *)
Definition py_index (v : pyobj) (n : nat) : result pyobj :=
  match v with
  | PyList items | PyTuple items =>
      match items !! n with Some x => Ok x | None => Raise IndexError end
  | PyStr s =>
      match String.get n s with
      | Some c => Ok (PyStr (String c EmptyString))
      | None => Raise IndexError
      end
  | PyDict _ => Raise KeyError
  | PyNone | PyBool _ | PyInt _ | PyFloat _ => Raise TypeError
  end.

(** The last item stored under [key]: a later item replaces an earlier. *)
Fixpoint dict_get (key : string) (items : list (string * pyobj)) : option pyobj :=
  match items with
  | [] => None
  | (k, v) :: rest =>
      match dict_get key rest with
      | Some v' => Some v'
      | None => if String.eqb k key then Some v else None
      end
  end.

(** [v[key]] for a string [key]. *)
Definition py_item (v : pyobj) (key : string) : result pyobj :=
  match v with
  | PyDict items =>
      match dict_get key items with Some x => Ok x | None => Raise KeyError end
  | _ => Raise TypeError
  end.

(** Truth value, as [if data:] tests it. *)
Definition py_truthy (v : pyobj) : bool :=
  match v with
  | PyNone => false
  | PyBool b => b
  | PyInt z => negb (Z.eqb z 0)
  | PyFloat x => negb (PrimFloat.eqb x PrimFloat.zero)
  | PyStr s => negb (String.eqb s "")
  | PyList items | PyTuple items => negb (Nat.eqb (length items) 0)
  | PyDict items => negb (Nat.eqb (length items) 0)
  end.

(** [str(n)] for an integer: decimal digits, ["-"] in front when negative. *)
Definition py_str_int (n : Z) : string :=
  DecimalString.NilZero.string_of_int (Z.to_int n).

End Py.
Export Py.

(* ===================================================================== *)
(** ** Incident rows and the pandas operations *)
(* ===================================================================== *)

Module Frame.

#[local] Open Scope string_scope.

(** One row of the incident file: the count column (the first column),
    [Zip Code] ([None] is NaN), [Type of Incident], [Year of Incident]. *)
Record incident := Incident {
  count : Z;
  zip_code : option Z;
  type_of_incident : string;
  year_of_incident : Z
}.

(** A row after [filter_for_burglary_property_incidents]: the category in
    [Type of Incident] and the new column [Original_Incident_Type]. *)
Record property_incident := PropertyIncident {
  p_count : Z;
  p_zip_code : option Z;
  p_type_of_incident : string;
  p_year_of_incident : Z;
  original_incident_type : string
}.

(** [Series.unique()]: the distinct values in order of first appearance. *)
Fixpoint unique {A} `{EqDecision A} (l : list A) : list A :=
  match l with
  | [] => []
  | x :: rest => x :: filter (fun y => y ≠ x) (unique rest)
  end.

(** [str.upper()] on ASCII letters; other bytes are left as they are. *)
Definition upper_ascii (c : ascii) : ascii :=
  let n := nat_of_ascii c in
  if (Nat.leb 97 n && Nat.leb n 122)%bool then ascii_of_nat (n - 32) else c.

Fixpoint str_upper (s : string) : string :=
  match s with
  | EmptyString => EmptyString
  | String c rest => String (upper_ascii c) (str_upper rest)
  end.

Fixpoint starts_with (p s : string) : bool :=
  match p, s with
  | EmptyString, _ => true
  | String _ _, EmptyString => false
  | String a p', String b s' => (Ascii.eqb a b && starts_with p' s')%bool
  end.

(** [needle] occurs in [s]. *)
Fixpoint str_contains (needle s : string) : bool :=
  (starts_with needle s ||
   match s with
   | EmptyString => false
   | String _ rest => str_contains needle rest
   end)%bool.

(** Keys of a [groupby] and their order: zip code first, then the text. *)
Definition key_leb (a b : Z * string) : bool :=
  (Z.ltb a.1 b.1 || (Z.eqb a.1 b.1 && String.leb a.2 b.2))%bool.

(** [groupby(keys)[count].sum().reset_index()], one input row at a time:
    a key already met has the count added to its sum; a new key takes its
    place in key order. *)
Fixpoint bump (k : Z * string) (c : Z) (acc : list ((Z * string) * Z))
    : list ((Z * string) * Z) :=
  match acc with
  | [] => []
  | (k', v) :: rest =>
      if decide (k' = k) then (k', v + c) :: rest
      else (k', v) :: bump k c rest
  end.

Fixpoint insert_sorted (k : Z * string) (c : Z) (acc : list ((Z * string) * Z))
    : list ((Z * string) * Z) :=
  match acc with
  | [] => [(k, c)]
  | (k', v) :: rest =>
      if key_leb k k' then (k, c) :: acc
      else (k', v) :: insert_sorted k c rest
  end.

Definition group_add (acc : list ((Z * string) * Z)) (kc : (Z * string) * Z)
    : list ((Z * string) * Z) :=
  if decide (kc.1 ∈ acc.*1) then bump kc.1 kc.2 acc
  else insert_sorted kc.1 kc.2 acc.

Definition groupby_sum (rows : list ((Z * string) * Z)) : list ((Z * string) * Z) :=
  foldl group_add [] rows.

(** A Python [dict] from strings to counts, items in insertion order. *)
Fixpoint dict_set (k : string) (v : Z) (d : list (string * Z)) : list (string * Z) :=
  match d with
  | [] => [(k, v)]
  | (k', v') :: rest =>
      if decide (k' = k) then (k', v) :: rest else (k', v') :: dict_set k v rest
  end.

(** [dict(pairs)]. *)
Definition py_dict (pairs : list (string * Z)) : list (string * Z) :=
  foldl (fun d kv => dict_set kv.1 kv.2 d) [] pairs.

(** [sum(d.values())]. *)
Definition sum_values (d : list (string * Z)) : Z :=
  foldl Z.add 0 d.*2.

(** The sum of the counts stored under the keys that satisfy [p]. *)
Definition tally (p : Z * string -> bool) (l : list ((Z * string) * Z)) : Z :=
  foldr (fun kv s => if p kv.1 then kv.2 + s else s) 0 l.

End Frame.
Export Frame.

(* ===================================================================== *)
(** ** Classification and aggregation *)
(* ===================================================================== *)

Module Aggregate.

#[local] Open Scope string_scope.

(** Lines 133-146. *)
Definition property_keywords : list string :=
  [ "BURGLARY"; "THEFT"; "ROBBERY"; "STOLEN"; "BREAKING"; "ENTERING";
    "LARCENY"; "EMBEZZLEMENT"; "AUTO THEFT"; "CRIMINAL MISCHIEF";
    "VANDALISM"; "SHOPLIFTING" ].

(** Lines 149-152: the mask.  The pattern ["|".join(property_keywords)] is an
    alternation of plain words (letters and blanks only), so a regular
    expression search succeeds exactly when one of them occurs. *)
Definition property_mask (r : incident) : bool :=
  existsb (fun kw => str_contains kw (str_upper (type_of_incident r)))
          property_keywords.

Definition property_crime : string := "Property Crime".

(** Lines 154-160: a retained row, with its original type kept aside and the
    single category written over [Type of Incident]. *)
Definition relabel (r : incident) : property_incident :=
  {| p_count := count r;
     p_zip_code := zip_code r;
     p_type_of_incident := property_crime;
     p_year_of_incident := year_of_incident r;
     original_incident_type := type_of_incident r |}.

(** [filter_for_burglary_property_incidents], lines 127-166. *)
Definition filter_for_burglary_property_incidents (df : list incident)
    : list property_incident :=
  relabel <$> filter (fun r => property_mask r = true) df.

(** The classifier the filter amounts to: the category, or [None] for an
    incident type that no keyword matches. *)
Definition classify (raw_type : string) : option string :=
  if existsb (fun kw => str_contains kw (str_upper raw_type)) property_keywords
  then Some property_crime else None.

(** A row of the frame that [prepare_map_data] returns: [Zip Code],
    [Type of Incident], the summed count, [Incident_Counts] ([None] is the
    NaN that [Series.map] leaves for a missing key), [lat], [lon]. *)
Record map_row := MapRow {
  m_zip_code : Z;
  m_type_of_incident : string;
  m_count : Z;
  m_incident_counts : option (list (string * Z));
  m_lat : pyobj;
  m_lon : pyobj
}.

(** Lines 184-185: rows with a zip code that is a key of the cache. *)
Definition has_coordinates (zip_coordinates : gmap Z pyobj)
    (r : property_incident) : Prop :=
  ∃ z, p_zip_code r = Some z ∧ is_Some (zip_coordinates !! z).

#[export] Instance has_coordinates_dec zc r : Decision (has_coordinates zc r).
Proof.
  unfold has_coordinates. destruct (p_zip_code r) as [z|].
  - destruct (decide (is_Some (zc !! z))) as [Hs|Hn].
    + left. eauto.
    + right. intros (z' & [= <-] & Hs). done.
  - right. intros (z' & [=] & _).
Defined.

(** The zip code of a clean row (they all have one). *)
Definition zip_of (r : property_incident) : Z := default 0 (p_zip_code r).

(** Lines 192-196: sums by zip code and original type. *)
Definition incident_details (df_clean : list property_incident)
    : list ((Z * string) * Z) :=
  groupby_sum ((fun r => ((zip_of r, original_incident_type r), p_count r)) <$> df_clean).

(** Lines 197-201: for each zip code of [incident_details], the dict of its
    rows, zipping the type column with the count column. *)
Definition breakdown_of (z : Z) (details : list ((Z * string) * Z))
    : list (string * Z) :=
  py_dict ((fun kv => (kv.1.2, kv.2)) <$> filter (fun kv => kv.1.1 = z) details).

Definition incident_counts (details : list ((Z * string) * Z))
    : gmap Z (list (string * Z)) :=
  list_to_map ((fun z => (z, breakdown_of z details)) <$> unique (details.*1.*1)).

(** Lines 204-208: sums by zip code and category. *)
Definition grouped (df_clean : list property_incident) : list ((Z * string) * Z) :=
  groupby_sum ((fun r => ((zip_of r, p_type_of_incident r), p_count r)) <$> df_clean).

(** Lines 211-215: the three columns added to a grouped row.
    [zip_coordinates[x]] raises [KeyError] for a missing key. *)
Definition annotate (zip_coordinates : gmap Z pyobj)
    (counts : gmap Z (list (string * Z))) (g : (Z * string) * Z) : result map_row :=
  match zip_coordinates !! g.1.1 with
  | None => Raise KeyError
  | Some coords =>
      lat ← py_index coords 0;
      lon ← py_index coords 1;
      mret {| m_zip_code := g.1.1;
              m_type_of_incident := g.1.2;
              m_count := g.2;
              m_incident_counts := counts !! g.1.1;
              m_lat := lat;
              m_lon := lon |}
  end.

(** A column is filled row by row; the first exception ends it. *)
Fixpoint map_rows {A B} (f : A -> result B) (l : list A) : result (list B) :=
  match l with
  | [] => Ok []
  | x :: rest => y ← f x; ys ← map_rows f rest; mret (y :: ys)
  end.

(** Lines 184-185. *)
Definition clean (zip_coordinates : gmap Z pyobj) (df_filtered : list property_incident)
    : list property_incident :=
  filter (has_coordinates zip_coordinates)
         (filter (fun r => p_zip_code r ≠ None) df_filtered).

(** [prepare_map_data], lines 169-218. *)
Definition prepare_map_data (df : list incident) (zip_coordinates : gmap Z pyobj)
    : result (list map_row) :=
  let df_2024 := filter (fun r => year_of_incident r = 2024) df in
  let df_filtered := filter_for_burglary_property_incidents df_2024 in
  let df_clean := clean zip_coordinates df_filtered in
  let counts := incident_counts (incident_details df_clean) in
  map_rows (annotate zip_coordinates counts) (grouped df_clean).

(** An input row whose zip code is a key of the cache. *)
Definition cached (zip_coordinates : gmap Z pyobj) (r : incident) : Prop :=
  ∃ z, zip_code r = Some z ∧ is_Some (zip_coordinates !! z).

(** The rows of the second scenario: zip 75201 is cached, 99999 is not. *)
Definition two_zip_rows : list incident :=
  [ Incident 4 (Some 75201) "THEFT" 2024;
    Incident 6 (Some 99999) "THEFT" 2024 ].

(** The end-to-end scenario of the specification. *)
Definition scenario_rows : list incident :=
  [ Incident 3 (Some 75201) "BURGLARY" 2024;
    Incident 2 (Some 75201) "SHOPLIFTING" 2024;
    Incident 5 (Some 75201) "ASSAULT" 2024 ].

Definition scenario_cache : gmap Z pyobj :=
  {[ 75201 := PyTuple [PyFloat 32.78; PyFloat (-96.80)] ]}.

(** The breakdown as the popup shows it (lines 278-280): sorted by count,
    largest first; [sorted] is stable, also with [reverse=True]. *)
Fixpoint insert_desc (kv : string * Z) (l : list (string * Z)) : list (string * Z) :=
  match l with
  | [] => [kv]
  | kv' :: rest =>
      if Z.leb kv'.2 kv.2 then kv :: l else kv' :: insert_desc kv rest
  end.

Definition sorted_incidents (d : list (string * Z)) : list (string * Z) :=
  foldr insert_desc [] d.

End Aggregate.
Export Aggregate.

(* ===================================================================== *)
(** ** The coordinate cache file *)
(* ===================================================================== *)

Module Cache.

#[local] Open Scope string_scope.

(** The cache file [dallas_zip_coordinates.json]: absent, present but not
    JSON, or a JSON document.  A document is the object tree that
    [json.load] returns for it; the text of numbers and strings is the
    [json] module's affair and is not modelled. *)
Inductive file :=
  | Missing
  | NotJson
  | Json (doc : pyobj).

(** What [json.dump] writes for a value: a tuple becomes an array. *)
Fixpoint to_json (v : pyobj) : pyobj :=
  match v with
  | PyList items | PyTuple items => PyList (List.map to_json items)
  | PyDict items =>
      PyDict (List.map (fun kv => let '(k, x) := kv in (k, to_json x)) items)
  | _ => v
  end.

(** [json.dump(coordinates, f)] for a dict with integer keys: each key is
    written as the string [str(key)]. *)
Definition dump (coordinates : gmap Z pyobj) : pyobj :=
  PyDict ((fun kv => (py_str_int kv.1, to_json kv.2)) <$> map_to_list coordinates).

(** Characters that [int()] skips around a number. *)
Definition is_space (c : ascii) : bool :=
  let n := nat_of_ascii c in
  ((Nat.leb 9 n && Nat.leb n 13) || (Nat.leb 28 n && Nat.leb n 32))%bool.

Definition is_digit (c : ascii) : bool :=
  let n := nat_of_ascii c in (Nat.leb 48 n && Nat.leb n 57)%bool.

Fixpoint lstrip (cs : list ascii) : list ascii :=
  match cs with
  | c :: rest => if is_space c then lstrip rest else cs
  | [] => []
  end.

Definition strip (cs : list ascii) : list ascii :=
  reverse (lstrip (reverse (lstrip cs))).

(** Digits with single underscores between them: the underscores are
    dropped; anything else is refused.  [after_digit] tells whether the
    previous character was a digit. *)
Fixpoint digits (after_digit : bool) (cs : list ascii) : option (list ascii) :=
  match cs with
  | [] => if after_digit then Some [] else None
  | c :: rest =>
      if is_digit c then (c ::.) <$> digits true rest
      else if (Ascii.eqb c "_" && after_digit)%bool then digits false rest
      else None
  end.

Definition unsigned_of (cs : list ascii) : option Z :=
  ds ← digits false cs;
  Z.of_uint <$> DecimalString.NilEmpty.uint_of_string (string_of_list_ascii ds).

(** [int(s)] for a string, base ten: surrounding blanks, an optional sign,
    digits.  (ASCII only: Python also accepts the digits and blanks of
    other scripts.) *)
Definition py_int (s : string) : result Z :=
  let r := match strip (list_ascii_of_string s) with
           | "-"%char :: rest => Z.opp <$> unsigned_of rest
           | "+"%char :: rest => unsigned_of rest
           | cs => unsigned_of cs
           end in
  match r with Some z => Ok z | None => Raise ValueError end.

(** [{int(k): v for k, v in coordinates.items()}], line 357. *)
Fixpoint int_keys (items : list (string * pyobj)) (acc : gmap Z pyobj)
    : result (gmap Z pyobj) :=
  match items with
  | [] => Ok acc
  | (k, v) :: rest => z ← py_int k; int_keys rest (<[z := v]> acc)
  end.

(** The [try] block of [load_coordinates_cache], lines 353-359. *)
Definition load_body (f : file) : result (gmap Z pyobj) :=
  match f with
  | Missing => Raise OSError
  | NotJson => Raise JSONDecodeError
  | Json (PyDict items) => int_keys items ∅
  | Json _ => Raise AttributeError
  end.

(** [load_coordinates_cache], lines 348-365: both handlers return [None]. *)
Definition load_coordinates_cache (f : file) : option (gmap Z pyobj) :=
  match load_body f with
  | Ok coordinates => Some coordinates
  | Raise _ => None
  end.

(** [save_coordinates_cache], lines 338-345: the new content of the file, or
    the [OSError] of [open] when the file cannot be written (the file is
    then left as it was). *)
Definition save_coordinates_cache (writable : bool) (coordinates : gmap Z pyobj)
    : result file :=
  if writable then Ok (Json (dump coordinates)) else Raise OSError.

(** The coordinate pair that a cache value holds: what [v[0]] and [v[1]]
    give when [v] is a tuple or a list of two floats. *)
Definition as_pair (v : pyobj) : option (float * float) :=
  match v with
  | PyList [PyFloat lat; PyFloat lon] | PyTuple [PyFloat lat; PyFloat lon] =>
      Some (lat, lon)
  | _ => None
  end.

(** The tuple [(lat, lon)] that [geocode_zip_code] returns. *)
Definition coordinate_tuple (c : float * float) : pyobj :=
  PyTuple [PyFloat c.1; PyFloat c.2].

(** The characters of a printed unsigned number. *)
Definition number_chars (d : Decimal.uint) : list ascii :=
  list_ascii_of_string (DecimalString.NilEmpty.string_of_uint d).

End Cache.
Export Cache.

(* ===================================================================== *)
(** ** Geocoding, the cache fill and [main] *)
(* ===================================================================== *)

Module Geocode.

#[local] Open Scope string_scope.

(** What the HTTP library hands back for a request: an exception of
    [requests.get] itself (no connection, timeout, ...), or a response with
    its status code and, when the body is JSON, the decoded body. *)
Inductive http_response :=
  | NoResponse
  | Response (status : Z) (body : option pyobj).

(** The surroundings of a run: the geocoding service as a function of the
    query text, Python's reader of floats from text, the incident file
    ([None]: it cannot be read), the answer typed at the prompt, and whether
    the cache file can be opened for writing. *)
Record environment := Environment {
  http_get : string -> http_response;
  float_of_str : string -> option float;
  police_data : option (list incident);
  answer : string;
  disk_writable : bool
}.

(** The effects of a run, in order. *)
Inductive event :=
  | Sleep (seconds : Q)
  | HttpGet (query : string)
  | Prompt
  | WriteCache (doc : pyobj).

Record world := World {
  cache_file : file;
  trace : list event
}.

Definition emit (e : event) (w : world) : world :=
  {| cache_file := cache_file w; trace := trace w ++ [e] |}.

(** A command: from a world to a result and the world after it. *)
Definition M (A : Type) : Type := world -> result A * world.

Definition ret {A} (a : A) : M A := fun w => (Ok a, w).
Definition raise {A} (e : exn) : M A := fun w => (Raise e, w).
Definition bind {A B} (m : M A) (f : A -> M B) : M B :=
  fun w => match m w with
           | (Ok a, w') => f a w'
           | (Raise e, w') => (Raise e, w')
           end.
Definition lift {A} (r : result A) : M A := fun w => (r, w).

(** [try: body except Exception: handler]. *)
Definition try_except {A} (body : M A) (handler : exn -> M A) : M A :=
  fun w => match body w with
           | (Ok a, w') => (Ok a, w')
           | (Raise e, w') => handler e w'
           end.

#[local] Notation "x <- m ;; k" := (bind m (fun x => k))
  (at level 90, m at level 80, right associativity).
#[local] Notation "m ;;; k" := (bind m (fun _ => k))
  (at level 90, right associativity).

(** [time.sleep(delay)]: a negative delay is a [ValueError]. *)
Definition sleep (delay : Q) : M unit :=
  fun w => if Qle_bool 0 delay then (Ok tt, emit (Sleep delay) w)
           else (Raise ValueError, w).

(** The [q] parameter, line 45. *)
Definition query_of (zip_code : Z) : string :=
  py_str_int zip_code ++ ", Dallas, Texas, USA".

(** [requests.get(url, params=params, headers=headers)]. *)
Definition requests_get (env : environment) (q : string) : M http_response :=
  fun w => match http_get env q with
           | NoResponse => (Raise ConnectionError, emit (HttpGet q) w)
           | r => (Ok r, emit (HttpGet q) w)
           end.

(** [response.raise_for_status()]: status codes 400 to 599 raise. *)
Definition raise_for_status (r : http_response) : result unit :=
  match r with
  | Response status _ =>
      if (Z.leb 400 status && Z.ltb status 600)%bool then Raise HTTPError else Ok tt
  | NoResponse => Raise ConnectionError
  end.

(** [response.json()]. *)
Definition response_json (r : http_response) : result pyobj :=
  match r with
  | Response _ (Some data) => Ok data
  | _ => Raise JSONDecodeError
  end.

(** [float(v)]. *)
Definition py_float (env : environment) (v : pyobj) : result float :=
  match v with
  | PyFloat x => Ok x
  | PyInt z => Ok (b64_of_Z z)
  | PyBool b => Ok (if b then PrimFloat.one else PrimFloat.zero)
  | PyStr s =>
      match float_of_str env s with Some x => Ok x | None => Raise ValueError end
  | PyNone | PyList _ | PyTuple _ | PyDict _ => Raise TypeError
  end.

(** [float(data[0][key])]. *)
Definition field (env : environment) (data : pyobj) (key : string) : result float :=
  first ← py_index data 0;
  v ← py_item first key;
  py_float env v.

(** [geocode_zip_code], lines 34-66. *)
Definition geocode_zip_code (env : environment) (zip_code : Z) (delay : Q)
    : M (option (float * float)) :=
  try_except
    (sleep delay ;;;
     response <- requests_get env (query_of zip_code) ;;
     lift (raise_for_status response) ;;;
     data <- lift (response_json response) ;;
     if py_truthy data then
       lat <- lift (field env data "lat") ;;
       lon <- lift (field env data "lon") ;;
       ret (Some (lat, lon))
     else ret None)
    (fun _ => ret None).

Definition default_delay : Q := 1 # 10.

(** The loop of [create_zip_coordinates_cache], lines 84-93. *)
Fixpoint geocode_loop (env : environment) (unique_zips : list Z)
    (coordinates : gmap Z pyobj) : M (gmap Z pyobj) :=
  match unique_zips with
  | [] => ret coordinates
  | zip_code :: rest =>
      coords <- geocode_zip_code env zip_code default_delay ;;
      geocode_loop env rest
        (match coords with
         | Some c => <[zip_code := coordinate_tuple c]> coordinates
         | None => coordinates
         end)
  end.

(** [create_zip_coordinates_cache], lines 69-96. *)
Definition create_zip_coordinates_cache (env : environment) (df : list incident)
    : M (gmap Z pyobj) :=
  let unique_zips := unique (omap zip_code df) in
  geocode_loop env unique_zips ∅.

(** [save_coordinates_cache] on the world. *)
Definition save_cache (env : environment) (coordinates : gmap Z pyobj) : M unit :=
  fun w => match save_coordinates_cache (disk_writable env) coordinates with
           | Ok f => (Ok tt, {| cache_file := f;
                                trace := trace w ++ [WriteCache (dump coordinates)] |})
           | Raise e => (Raise e, w)
           end.

Definition lower_ascii (c : ascii) : ascii :=
  let n := nat_of_ascii c in
  if (Nat.leb 65 n && Nat.leb n 90)%bool then ascii_of_nat (n + 32) else c.

Fixpoint str_lower (s : string) : string :=
  match s with
  | EmptyString => EmptyString
  | String c rest => String (lower_ascii c) (str_lower rest)
  end.

(** How [main] ends. *)
Inductive outcome :=
  | NoData
  | Cancelled
  | CacheNotCreated
  | NothingToMap
  | MapWritten (map_data : list map_row).

(** Lines 381-398: no cache could be loaded. *)
Definition fill_cache (env : environment) (df : list incident)
    : M (outcome + gmap Z pyobj) :=
  (fun w => (Ok tt, emit Prompt w)) ;;;
  if negb (String.eqb (str_lower (answer env)) "y") then ret (inl Cancelled)
  else
    zip_coordinates <- create_zip_coordinates_cache env df ;;
    if decide (zip_coordinates = ∅) then ret (inl CacheNotCreated)
    else save_cache env zip_coordinates ;;; ret (inr zip_coordinates).

(** [main], lines 368-427.  The map itself is drawn by folium from
    [map_data]; drawing it is outside the model. *)
Definition main (env : environment) : M outcome :=
  match police_data env with
  | None => ret NoData
  | Some df =>
      cached <- (fun w => (Ok (load_coordinates_cache (cache_file w)), w)) ;;
      filled <- match cached with
                | Some zip_coordinates => ret (inr zip_coordinates)
                | None => fill_cache env df
                end ;;
      match filled with
      | inl stop => ret stop
      | inr zip_coordinates =>
          map_data <- lift (prepare_map_data df zip_coordinates) ;;
          if Nat.eqb (length map_data) 0 then ret NothingToMap
          else ret (MapWritten map_data)
      end
  end.

(** The queries sent and the cache documents written, read off a trace. *)
Definition queries (t : list event) : list string :=
  omap (fun e => match e with HttpGet q => Some q | _ => None end) t.

Definition writes (t : list event) : list pyobj :=
  omap (fun e => match e with WriteCache d => Some d | _ => None end) t.

(** The value that [geocode_zip_code] returns after a successful sleep, as
    a function of the service's answer to the query for [zip_code]. *)
Definition resolved (env : environment) (zip_code : Z) : option (float * float) :=
  match http_get env (query_of zip_code) with
  | Response status (Some data) =>
      if (Z.leb 400 status && Z.ltb status 600)%bool then None
      else if py_truthy data then
        match field env data "lat", field env data "lon" with
        | Ok lat, Ok lon => Some (lat, lon)
        | _, _ => None
        end
      else None
  | _ => None
  end.

(** One step of the fill loop on the dictionary. *)
Definition record_coords (env : environment) (coordinates : gmap Z pyobj)
    (zip_code : Z) : gmap Z pyobj :=
  match resolved env zip_code with
  | Some c => <[zip_code := coordinate_tuple c]> coordinates
  | None => coordinates
  end.

(** The effects of one call of [geocode_zip_code] with the default delay. *)
Definition call_events (zip_code : Z) : list event :=
  [Sleep default_delay; HttpGet (query_of zip_code)].

(** The dictionary that the fill loop builds for the rows [df]. *)
Definition fill_result (env : environment) (df : list incident) : gmap Z pyobj :=
  foldl (record_coords env) ∅ (unique (omap zip_code df)).

(** The keys to resolve as the specification words them:
    [distinct(location_keys) - keys(cache)]. *)
Definition spec_unresolved (df : list incident) (cache : gmap Z pyobj) : list Z :=
  filter (fun z => cache !! z = None) (unique (omap zip_code df)).

(** A run in which every lookup fails: one zip code, no connection. *)
Definition offline : environment :=
  {| http_get := fun _ => NoResponse;
     float_of_str := fun _ => None;
     police_data := Some [Incident 1 (Some 75201) "THEFT" 2024];
     answer := "y";
     disk_writable := true |}.

(** A run that finds a cache for 75201 while the data also has 75202. *)
Definition partly_cached : environment :=
  {| http_get := fun _ =>
       Response 200 (Some (PyList [PyDict [("lat", PyStr "32.8"); ("lon", PyStr "-96.8")]]));
     float_of_str := fun _ => Some 1%float;
     police_data := Some [Incident 1 (Some 75201) "THEFT" 2024;
                          Incident 1 (Some 75202) "THEFT" 2024];
     answer := "y";
     disk_writable := true |}.

Definition partly_cached_file : file :=
  Json (PyDict [("75201", PyList [PyFloat 32.78; PyFloat (-96.80)])]).

(** A run that resolves 75201 and fails on 75202, with no cache file. *)
Definition half_resolved : environment :=
  {| http_get := fun q =>
       if String.eqb q "75201, Dallas, Texas, USA"
       then Response 200 (Some (PyList [PyDict [("lat", PyFloat 32.78); ("lon", PyFloat (-96.80))]]))
       else Response 200 (Some (PyList []));
     float_of_str := fun _ => None;
     police_data := Some [Incident 1 (Some 75201) "THEFT" 2024;
                          Incident 1 (Some 75202) "THEFT" 2024];
     answer := "Y";
     disk_writable := true |}.

End Geocode.
Export Geocode.

(* ===================================================================== *)
(** ** Vocabulary for the properties of the pipeline *)
(* ===================================================================== *)

Module Pipeline.

(** An input row that reaches the grouping of [prepare_map_data]: it is of
    2024, the keyword mask keeps it, and its zip code is a key of the cache. *)
Definition qualifies (zip_coordinates : gmap Z pyobj) (r : incident) : Prop :=
  year_of_incident r = 2024 ∧ property_mask r = true ∧ cached zip_coordinates r.

#[export] Instance cached_dec zc r : Decision (cached zc r).
Proof.
  unfold cached. destruct (zip_code r) as [z|].
  - destruct (decide (is_Some (zc !! z))) as [Hs|Hn].
    + left. eauto.
    + right. intros (z' & [= <-] & Hs). done.
  - right. intros (z' & [=] & _).
Defined.

#[export] Instance qualifies_dec zc r : Decision (qualifies zc r).
Proof. unfold qualifies. apply _. Defined.

(** The sum of the count column over some rows. *)
Definition count_sum (rows : list incident) : Z :=
  foldr (fun r s => count r + s) 0 rows.

(** A cache value from which [v[0]] and [v[1]] can be read. *)
Definition indexable (v : pyobj) : Prop :=
  ∃ a b, py_index v 0 = Ok a ∧ py_index v 1 = Ok b.

(** Strictly before, for strings (by character code) and for the keys of a
    grouped frame (zip code first, then the text). *)
Definition string_lt (s t : string) : Prop := String.compare s t = Lt.

Definition key_lt (a b : Z * string) : Prop :=
  a.1 < b.1 ∨ (a.1 = b.1 ∧ string_lt a.2 b.2).

(** The value of the last item of a JSON object whose key reads as the
    integer [z]. *)
Fixpoint last_for (z : Z) (items : list (string * pyobj)) : option pyobj :=
  match items with
  | [] => None
  | (k, v) :: rest =>
      match last_for z rest with
      | Some v' => Some v'
      | None =>
          match py_int k with
          | Ok z' => if Z.eqb z' z then Some v else None
          | Raise _ => None
          end
      end
  end.

(** In a trace, every request comes directly after a sleep of the default
    delay. *)
Definition polite (t : list event) : Prop :=
  ∀ (i : nat) q, t !! i = Some (HttpGet q) →
    ∃ j : nat, i = S j ∧ t !! j = Some (Sleep default_delay).

(** How [main] ends once the cache stage has given a cache (lines 400-427). *)
Definition finish (df : list incident) (zc : gmap Z pyobj) : result outcome :=
  match prepare_map_data df zc with
  | Ok rows => Ok (if Nat.eqb (length rows) 0 then NothingToMap else MapWritten rows)
  | Raise e => Raise e
  end.

End Pipeline.
Export Pipeline.

(* ===================================================================== *)
(** ** The markers of the map *)
(* ===================================================================== *)

Module Render.

#[local] Open Scope string_scope.

(** A circle marker as [create_incident_map] builds it (lines 265-311):
    where it is, its radius, its fill color, what its popup shows (zip code,
    total, incident list) and the layer it is added to ([None]: the map
    itself).  The HTML of the popup and the fixed styling are left out. *)
Record marker (F : Type) := Marker {
  location : pyobj * pyobj;
  radius : option F;
  fill_color : string;
  popup_zip : Z;
  popup_total : Z;
  popup_incidents : list (string * Z);
  layer : option string
}.
Arguments Marker {F}.
Arguments location {F}.
Arguments radius {F}.
Arguments fill_color {F}.
Arguments popup_zip {F}.
Arguments popup_total {F}.
Arguments popup_incidents {F}.
Arguments layer {F}.

(** Lines 243-244: the smallest and the largest count ([None] for an empty
    frame). *)
Definition min_count (map_data : list map_row) : option Z :=
  foldr (fun row acc => match acc with
                        | Some m => Some (Z.min (m_count row) m)
                        | None => Some (m_count row)
                        end) None map_data.

Definition max_count (map_data : list map_row) : option Z :=
  foldr (fun row acc => match acc with
                        | Some m => Some (Z.max (m_count row) m)
                        | None => Some (m_count row)
                        end) None map_data.

(** Lines 256-258: the totals by incident type, and the ten types with the
    largest totals ([nlargest] keeps the first of equal totals). *)
Definition type_totals (map_data : list map_row) : list (string * Z) :=
  (fun kv => (kv.1.2, kv.2)) <$>
    groupby_sum ((fun row => ((0, m_type_of_incident row), m_count row)) <$> map_data).

Definition top_incident_types (map_data : list map_row) : list string :=
  (take 10 (sorted_incidents (type_totals map_data))).*1.

(** Lines 265-311: the marker of one row. *)
Definition marker_of {F} `{FloatLike F} (colors : gmap string string)
    (min_c max_c : Z) (top : list string) (row : map_row) : result (marker F) :=
  match m_incident_counts row with
  | None => Raise AttributeError
  | Some incident_counts_dict =>
      Ok {| location := (m_lat row, m_lon row);
            radius := scale_marker_size (m_count row) min_c max_c;
            fill_color := default gray (colors !! m_type_of_incident row);
            popup_zip := m_zip_code row;
            popup_total := m_count row;
            popup_incidents := sorted_incidents incident_counts_dict;
            layer := if decide (m_type_of_incident row ∈ top)
                     then Some (m_type_of_incident row) else None |}
  end.

(** The markers of [create_incident_map], lines 237-311, in the order of the
    rows.  The base map, the tile layers, the layer control and the legend
    do not depend on the data. *)
Definition incident_markers {F} `{FloatLike F} (map_data : list map_row)
    : result (list (marker F)) :=
  let incident_types := unique (m_type_of_incident <$> map_data) in
  match generate_colors_for_incident_types (F:=F) incident_types 50 with
  | None => Raise ValueError
  | Some colors =>
      match min_count map_data, max_count map_data with
      | Some min_c, Some max_c =>
          map_rows (marker_of colors min_c max_c (top_incident_types map_data)) map_data
      | _, _ => Ok []
      end
  end.

End Render.
Export Render.

(* ===================================================================== *)
(** * Properties *)
(* ===================================================================== *)

(** ** Marker sizes *)

Section MarkerFacts.

#[local] Open Scope Q_scope.

(** The division of [scale_marker_size] is only reached with a non-zero
    divisor, whatever the reading of the numbers. *)
Lemma scale_marker_size_unfold {F} `{FloatLike F} (count mn mx : Z) :
  scale_marker_size count mn mx =
    Some (if Z.eqb mx mn then of_Z 15
          else fadd (of_Z 5)
                 (fmul (fdiv (of_Z (count - mn)) (of_Z (mx - mn))) (of_Z 25))).
Proof.
  unfold scale_marker_size, true_div.
  destruct (Z.eqb_spec mx mn) as [->|Hne]; [done|].
  destruct (Z.eqb_spec (mx - mn) 0) as [H0|_]; [lia|done].
Qed.


(** Binary64 check of the bounds on a grid of small counts: every
    [0 <= mn <= count <= mx < 24] gives a size between 5 and 30. *)
Lemma scale_marker_size_b64_grid :
  forallb (fun mx => forallb (fun mn => forallb (fun c =>
      b64_in_bounds (Z.of_nat c) (Z.of_nat mn) (Z.of_nat mx))
    (seq mn (S mx - mn))) (seq 0 (S mx))) (seq 0 24) = true.
Proof. vm_compute. reflexivity. Qed.

(** C3 (as the code has it).  [scale_marker_size] never divides by zero; in
    exact arithmetic it returns the fixed size 15 when the two bounds
    coincide and otherwise the linear interpolation of the specification
    between 5 and 30; in binary64, [scale(10,5,5) = 15],
    [scale(5,5,30) = 5] and [scale(30,5,30) = 30]. *)
Theorem scale_marker_size_fixed_or_linear (count mn mx : Z) :
  (forall F (HF : FloatLike F), is_Some (scale_marker_size (F:=F) count mn mx)) /\
  (exists x : Q, scale_marker_size count mn mx = Some x /\
     x == if Z.eqb mx mn then 15 else spec_scale count mn mx 5 30) /\
  scale_marker_size (F:=float) 10 5 5 = Some 15%float /\
  scale_marker_size (F:=float) 5 5 30 = Some 5%float /\
  scale_marker_size (F:=float) 30 5 30 = Some 30%float.
Proof.
  split; [|split; [|by vm_compute]].
  - intros F HF. rewrite scale_marker_size_unfold. eauto.
  - rewrite scale_marker_size_unfold. eexists; split; [reflexivity|].
    unfold spec_scale. destruct (Z.eqb mx mn); [reflexivity|].
    simpl. ring.
Qed.

(** C3 (as the specification states it) fails: with equal bounds the code
    returns 15, not the midpoint 17.5 of [5, 30]. *)
Lemma scale_marker_size_not_midpoint :
  scale_marker_size (F:=float) 10 5 5 <> Some 17.5%float /\
  scale_marker_size (F:=Q) 10 5 5 = Some 15 /\
  spec_scale 10 5 5 5 30 == 35 # 2 /\
  ~ 15 == spec_scale 10 5 5 5 30.
Proof.
  split; [|split; [|split]].
  - vm_compute. discriminate.
  - reflexivity.
  - reflexivity.
  - vm_compute. discriminate.
Qed.



End MarkerFacts.

(** ** Grouping *)

Section GroupingFacts.

Implicit Types (k : Z * string) (c v : Z) (acc l : list ((Z * string) * Z)).
Implicit Types (p : Z * string -> bool).

Lemma tally_app p l1 l2 : tally p (l1 ++ l2) = tally p l1 + tally p l2.
Proof.
  induction l1 as [|[k v] l1 IH]; simpl; [done|].
  rewrite IH. destruct (p k); lia.
Qed.

Lemma bump_keys k c acc : (bump k c acc).*1 = acc.*1.
Proof.
  induction acc as [|[k' v] acc IH]; csimpl; [done|].
  destruct (decide (k' = k)); csimpl; [done|]. by rewrite IH.
Qed.

Lemma bump_tally p k c acc :
  k ∈ acc.*1 -> tally p (bump k c acc) = tally p acc + (if p k then c else 0).
Proof.
  induction acc as [|[k' v] acc IH]; simpl; intros Hk.
  - by apply elem_of_nil in Hk.
  - destruct (decide (k' = k)) as [->|Hne]; simpl.
    + destruct (p k); lia.
    + apply elem_of_cons in Hk as [Hk|Hk]; [congruence|].
      rewrite (IH Hk). destruct (p k'); lia.
Qed.

Lemma insert_sorted_keys k c acc : (insert_sorted k c acc).*1 ≡ₚ k :: acc.*1.
Proof.
  induction acc as [|[k' v] acc IH]; csimpl; [done|].
  destruct (key_leb k k'); csimpl; [done|].
  rewrite IH. apply Permutation_swap.
Qed.

Lemma insert_sorted_tally p k c acc :
  tally p (insert_sorted k c acc) = tally p acc + (if p k then c else 0).
Proof.
  induction acc as [|[k' v] acc IH]; simpl.
  - destruct (p k); lia.
  - destruct (key_leb k k'); simpl.
    + destruct (p k), (p k'); lia.
    + rewrite IH. destruct (p k'); lia.
Qed.

Lemma group_add_tally p acc k c :
  tally p (group_add acc (k, c)) = tally p acc + (if p k then c else 0).
Proof.
  unfold group_add; cbn [fst snd]. destruct (decide (k ∈ acc.*1)).
  - by apply bump_tally.
  - apply insert_sorted_tally.
Qed.

Lemma group_add_keys acc k c x :
  x ∈ (group_add acc (k, c)).*1 <-> x = k \/ x ∈ acc.*1.
Proof.
  unfold group_add; cbn [fst snd]. destruct (decide (k ∈ acc.*1)) as [Hin|Hout].
  - rewrite bump_keys. split; [tauto|]. intros [->|?]; done.
  - rewrite insert_sorted_keys. apply elem_of_cons.
Qed.

Lemma group_add_NoDup acc k c : NoDup acc.*1 -> NoDup (group_add acc (k, c)).*1.
Proof.
  intros Hnd. unfold group_add; cbn [fst snd]. destruct (decide (k ∈ acc.*1)) as [Hin|Hout].
  - by rewrite bump_keys.
  - rewrite insert_sorted_keys. by constructor.
Qed.

(** The three facts about [groupby(...).sum()] that the aggregation rests
    on: one row per key; the keys are those of the input; and the sums
    taken over any set of keys are those of the input. *)
Lemma foldl_group_add acc l :
  NoDup acc.*1 ->
  NoDup (foldl group_add acc l).*1 /\
  (forall x, x ∈ (foldl group_add acc l).*1 <-> x ∈ acc.*1 \/ x ∈ l.*1) /\
  (forall p, tally p (foldl group_add acc l) = tally p acc + tally p l).
Proof.
  revert acc. induction l as [|[k c] l IH]; simpl; intros acc Hnd.
  - split; [done|]. split.
    + intros x. rewrite elem_of_nil. tauto.
    + intros p. lia.
  - destruct (IH (group_add acc (k, c))) as (H1 & H2 & H3).
    { by apply group_add_NoDup. }
    split; [done|]. split.
    + intros x. rewrite H2, group_add_keys, elem_of_cons. tauto.
    + intros p. rewrite H3, group_add_tally. destruct (p k); lia.
Qed.

Lemma groupby_sum_NoDup l : NoDup (groupby_sum l).*1.
Proof. apply (foldl_group_add [] l). constructor. Qed.

Lemma groupby_sum_keys l x : x ∈ (groupby_sum l).*1 <-> x ∈ l.*1.
Proof.
  destruct (foldl_group_add [] l) as (_ & H & _); [constructor|].
  unfold groupby_sum. rewrite H, elem_of_nil. tauto.
Qed.

Lemma groupby_sum_tally p l : tally p (groupby_sum l) = tally p l.
Proof.
  destruct (foldl_group_add [] l) as (_ & _ & H); [constructor|].
  unfold groupby_sum. rewrite H. done.
Qed.

(** In a frame with one row per key, the tally of a single key is the
    count of its row. *)
Lemma tally_single l k v :
  NoDup l.*1 -> (k, v) ∈ l -> tally (fun k' => bool_decide (k' = k)) l = v.
Proof.
  induction l as [|[k' v'] l IH]; simpl; intros Hnd Hin.
  - by apply elem_of_nil in Hin.
  - apply NoDup_cons in Hnd as [Hk' Hnd].
    assert (Hrest : forall l', k ∉ l'.*1 ->
              tally (fun k0 => bool_decide (k0 = k)) l' = 0).
    { clear. induction l' as [|[k1 v1] l' IH]; simpl; intros Hk; [done|].
      apply not_elem_of_cons in Hk as [Hne Hk].
      rewrite bool_decide_eq_false_2 by done. by apply IH. }
    apply elem_of_cons in Hin as [[= -> ->]|Hin].
    + rewrite bool_decide_eq_true_2 by done. rewrite Hrest by done. lia.
    + rewrite bool_decide_eq_false_2.
      * by apply IH.
      * intros ->. apply Hk'. apply list_elem_of_fmap. by exists (k, v).
Qed.

Lemma tally_ext p q l :
  (forall k, k ∈ l.*1 -> p k = q k) -> tally p l = tally q l.
Proof.
  induction l as [|[k v] l IH]; simpl; intros H; [done|].
  rewrite (H k) by (csimpl; apply elem_of_cons; by left).
  rewrite IH; [done|]. intros k' Hk'. apply H. csimpl. apply elem_of_cons. by right.
Qed.

End GroupingFacts.

(** ** Aggregation *)

Section AggregationFacts.

Lemma elem_of_unique {A} `{EqDecision A} (l : list A) x : x ∈ unique l <-> x ∈ l.
Proof.
  induction l as [|y l IH]; simpl; [done|].
  rewrite !elem_of_cons, list_elem_of_filter, IH.
  destruct (decide (x = y)); tauto.
Qed.

Lemma NoDup_unique {A} `{EqDecision A} (l : list A) : NoDup (unique l).
Proof.
  induction l as [|y l IH]; simpl; [constructor|].
  constructor.
  - rewrite list_elem_of_filter. tauto.
  - by apply NoDup_filter.
Qed.

Lemma dict_set_fresh k v (d : list (string * Z)) :
  k ∉ d.*1 -> dict_set k v d = d ++ [(k, v)].
Proof.
  induction d as [|[k' v'] d IH]; csimpl; intros Hk; [done|].
  apply not_elem_of_cons in Hk as [Hne Hk].
  destruct (decide (k' = k)); [congruence|]. by rewrite IH.
Qed.

Lemma foldl_dict_set (d l : list (string * Z)) :
  NoDup (d ++ l).*1 ->
  foldl (fun d kv => dict_set kv.1 kv.2 d) d l = d ++ l.
Proof.
  revert d. induction l as [|[k v] l IH]; simpl; intros d Hnd.
  - by rewrite app_nil_r.
  - rewrite dict_set_fresh.
    + rewrite IH; rewrite <- app_assoc; done.
    + rewrite fmap_app in Hnd. apply NoDup_app in Hnd as (_ & Hd & _).
      intros Hk. apply (Hd k Hk). csimpl. apply elem_of_cons. by left.
Qed.

(** A dict built from pairs with distinct keys holds exactly those pairs. *)
Lemma py_dict_NoDup (l : list (string * Z)) : NoDup l.*1 -> py_dict l = l.
Proof. intros Hnd. unfold py_dict. by rewrite foldl_dict_set. Qed.

Lemma foldl_add_shift (a : Z) (l : list Z) : foldl Z.add a l = a + foldl Z.add 0 l.
Proof.
  revert a. induction l as [|x l IH]; simpl; intros a; [lia|].
  rewrite (IH (a + x)), (IH (0 + x)). lia.
Qed.

(** The rows of one zip code in a grouped frame: their types are distinct
    and their counts add up to the tally of the zip code. *)
Lemma sub_frame_types_NoDup (z : Z) (l : list ((Z * string) * Z)) :
  NoDup l.*1 ->
  NoDup ((fun kv => (kv.1.2, kv.2)) <$> filter (fun kv => kv.1.1 = z) l).*1.
Proof.
  induction l as [|[[z' t] v] l IH]; csimpl; intros Hnd; [constructor|].
  apply NoDup_cons in Hnd as [Hk Hnd].
  rewrite filter_cons. destruct (decide (((z', t), v).1.1 = z)) as [Hz|Hz]; [|by apply IH].
  csimpl. constructor; [|by apply IH].
  simpl in Hz. intros Hin. apply Hk.
  apply list_elem_of_fmap in Hin as ([t' v'] & Ht & Hin).
  apply list_elem_of_fmap in Hin as ([[z2 t2] v2] & Heq & Hin).
  apply list_elem_of_filter in Hin as [Hz2 Hin].
  simpl in Ht, Heq, Hz2. injection Heq as Ht2 Hv2.
  apply list_elem_of_fmap. exists ((z2, t2), v2). split; [|done].
  simpl. congruence.
Qed.

Lemma sub_frame_sum (z : Z) (l : list ((Z * string) * Z)) :
  sum_values ((fun kv => (kv.1.2, kv.2)) <$> filter (fun kv => kv.1.1 = z) l)
  = tally (fun k => bool_decide (k.1 = z)) l.
Proof.
  unfold sum_values.
  induction l as [|[[z' t] v] l IH]; csimpl; [done|].
  rewrite filter_cons. destruct (decide (((z', t), v).1.1 = z)) as [Hz|Hz]; simpl in Hz.
  - rewrite bool_decide_eq_true_2 by done. csimpl.
    rewrite foldl_add_shift, IH. lia.
  - rewrite bool_decide_eq_false_2 by done. apply IH.
Qed.

Lemma breakdown_sum (z : Z) (l : list ((Z * string) * Z)) :
  NoDup l.*1 ->
  sum_values (breakdown_of z l) = tally (fun k => bool_decide (k.1 = z)) l.
Proof.
  intros Hnd. unfold breakdown_of.
  rewrite py_dict_NoDup by by apply sub_frame_types_NoDup.
  apply sub_frame_sum.
Qed.

Lemma incident_counts_lookup (details : list ((Z * string) * Z)) (z : Z) :
  z ∈ details.*1.*1 ->
  incident_counts details !! z = Some (breakdown_of z details).
Proof.
  intros Hz. unfold incident_counts.
  apply elem_of_unique in Hz. revert Hz.
  generalize (unique details.*1.*1). intros zs.
  induction zs as [|z' zs IH]; csimpl; intros Hz.
  - by apply elem_of_nil in Hz.
  - destruct (decide (z' = z)) as [->|Hne].
    + by rewrite lookup_insert_eq.
    + rewrite lookup_insert_ne by done. apply IH.
      apply elem_of_cons in Hz as [?|?]; [congruence|done].
Qed.

Lemma map_rows_elem {A B} (f : A -> result B) (l : list A) (ys : list B) :
  map_rows f l = Ok ys -> forall y, y ∈ ys -> exists x, x ∈ l /\ f x = Ok y.
Proof.
  revert ys. induction l as [|x l IH]; simpl; intros ys Hok y Hy.
  - injection Hok as <-. by apply elem_of_nil in Hy.
  - destruct (f x) as [y0|e] eqn:Hfx; simpl in Hok; [|discriminate].
    destruct (map_rows f l) as [ys0|e] eqn:Hrest; simpl in Hok; [|discriminate].
    injection Hok as <-. apply elem_of_cons in Hy as [->|Hy].
    + exists x. split; [apply elem_of_cons; by left|done].
    + destruct (IH ys0 eq_refl y Hy) as (x' & Hx' & Hfx').
      exists x'. split; [apply elem_of_cons; by right|done].
Qed.

Lemma annotate_ok zc counts g r :
  annotate zc counts g = Ok r ->
  m_zip_code r = g.1.1 /\ m_type_of_incident r = g.1.2 /\ m_count r = g.2 /\
  m_incident_counts r = counts !! g.1.1 /\ is_Some (zc !! g.1.1).
Proof.
  unfold annotate. destruct (zc !! g.1.1) as [coords|]; [|discriminate].
  destruct (py_index coords 0) as [lat|]; simpl; [|discriminate].
  destruct (py_index coords 1) as [lon|]; simpl; [|discriminate].
  intros [= <-]. simpl. eauto 10.
Qed.

(** Every clean row carries the single category. *)
Lemma clean_category zc (df : list incident) r :
  r ∈ clean zc (filter_for_burglary_property_incidents df) ->
  p_type_of_incident r = property_crime.
Proof.
  unfold clean, filter_for_burglary_property_incidents.
  rewrite !list_elem_of_filter, list_elem_of_fmap.
  intros (_ & _ & r0 & -> & _). done.
Qed.

Lemma tally_by_zip (z : Z) (L : list property_incident) :
  tally (fun k => bool_decide (k.1 = z))
    ((fun r => ((zip_of r, p_type_of_incident r), p_count r)) <$> L)
  = tally (fun k => bool_decide (k.1 = z))
    ((fun r => ((zip_of r, original_incident_type r), p_count r)) <$> L).
Proof. induction L as [|r L IH]; csimpl; [done|]. by rewrite IH. Qed.

(** The invariant behind C2, on the clean rows: a grouped row's count is
    the sum of the breakdown attached to its zip code. *)
Lemma grouped_total_is_breakdown_sum (L : list property_incident) z cat v :
  (forall r, r ∈ L -> p_type_of_incident r = property_crime) ->
  ((z, cat), v) ∈ grouped L ->
  incident_counts (incident_details L) !! z
    = Some (breakdown_of z (incident_details L)) /\
  sum_values (breakdown_of z (incident_details L)) = v.
Proof.
  intros Hcat Hin. unfold grouped in Hin.
  set (kg := fun r => ((zip_of r, p_type_of_incident r), p_count r)) in *.
  set (kd := fun r => ((zip_of r, original_incident_type r), p_count r)).
  assert (Hkey : (z, cat) ∈ (kg <$> L).*1).
  { apply groupby_sum_keys. apply list_elem_of_fmap. by exists ((z, cat), v). }
  apply list_elem_of_fmap in Hkey as ([k0 v0] & Hk0 & Hkey). simpl in Hk0. subst k0.
  apply list_elem_of_fmap in Hkey as (r0 & [= Hz Hc Hv] & Hr0).
  split.
  - apply incident_counts_lookup. unfold incident_details. fold kd.
    apply list_elem_of_fmap. exists (z, original_incident_type r0). split; [done|].
    apply groupby_sum_keys. apply list_elem_of_fmap.
    exists (kd r0). split; [by rewrite Hz|]. by apply list_elem_of_fmap_2.
  - rewrite breakdown_sum by apply groupby_sum_NoDup.
    unfold incident_details. fold kd. rewrite groupby_sum_tally.
    unfold kd. rewrite <- tally_by_zip. fold kg.
    rewrite <- (tally_single (groupby_sum (kg <$> L)) (z, cat) v);
      [|apply groupby_sum_NoDup|done].
    rewrite groupby_sum_tally. apply tally_ext.
    intros [z1 c1] Hk1. apply list_elem_of_fmap in Hk1 as ([k2 v2] & Hk2 & Hk1).
    simpl in Hk2. subst k2.
    apply list_elem_of_fmap in Hk1 as (r1 & [= Hz1 Hc1 Hv1] & Hr1).
    simpl. apply bool_decide_ext. split.
    + intros ->. f_equal. rewrite Hc1, Hc. by rewrite !Hcat.
    + by intros [= -> _].
Qed.

End AggregationFacts.

(** ** The aggregation pipeline: C1, C2, C4 *)

Section PipelineFacts.

(** C1.  The end-to-end scenario: three rows of zip 75201 in 2024, a cache
    that holds only 75201.  The pipeline returns exactly one record, for
    75201 and "Property Crime", with total 5 and the breakdown
    BURGLARY 3, SHOPLIFTING 2 (already in descending order); the ASSAULT row
    matches no property keyword and is left out. *)
Theorem scenario_one_record :
  prepare_map_data scenario_rows scenario_cache
    = Ok [ {| m_zip_code := 75201;
              m_type_of_incident := "Property Crime";
              m_count := 5;
              m_incident_counts := Some [("BURGLARY"%string, 3); ("SHOPLIFTING"%string, 2)];
              m_lat := PyFloat 32.78;
              m_lon := PyFloat (-96.80) |} ] /\
  sorted_incidents [("BURGLARY"%string, 3); ("SHOPLIFTING"%string, 2)]
    = [("BURGLARY"%string, 3); ("SHOPLIFTING"%string, 2)] /\
  filter_for_burglary_property_incidents scenario_rows
    = [ PropertyIncident 3 (Some 75201) "Property Crime" 2024 "BURGLARY";
        PropertyIncident 2 (Some 75201) "Property Crime" 2024 "SHOPLIFTING" ] /\
  classify "ASSAULT" = None.
Proof. vm_compute. repeat split; reflexivity. Qed.

(** C2.  In every record that the pipeline returns, the values of the
    breakdown add up to the record's total count. *)
Theorem breakdown_sums_to_total (df : list incident) (zc : gmap Z pyobj)
    (rows : list map_row) :
  prepare_map_data df zc = Ok rows ->
  Forall (fun r => exists d, m_incident_counts r = Some d /\
                             sum_values d = m_count r) rows.
Proof.
  unfold prepare_map_data. intros Hok. apply Forall_forall. intros r Hr.
  set (L := clean zc (filter_for_burglary_property_incidents
                        (filter (fun r => year_of_incident r = 2024) df))) in *.
  destruct (map_rows_elem _ _ _ Hok r Hr) as ([[z cat] v] & Hg & Hann).
  apply annotate_ok in Hann as (Hz & _ & Hv & Hc & _). simpl in Hz, Hv, Hc.
  destruct (grouped_total_is_breakdown_sum L z cat v) as [Hlook Hsum]; [|done|].
  { intros r0 Hr0. by apply clean_category in Hr0. }
  exists (breakdown_of z (incident_details L)). split; congruence.
Qed.

Lemma breakdown_sums_to_total_witness :
  Forall (fun r => exists d, m_incident_counts r = Some d /\
                             sum_values d = m_count r)
    [ {| m_zip_code := 75201;
         m_type_of_incident := "Property Crime";
         m_count := 5;
         m_incident_counts := Some [("BURGLARY"%string, 3); ("SHOPLIFTING"%string, 2)];
         m_lat := PyFloat 32.78;
         m_lon := PyFloat (-96.80) |} ].
Proof.
  apply (breakdown_sums_to_total scenario_rows scenario_cache).
  vm_compute. reflexivity.
Defined.

Lemma clean_drops_uncached zc (x : incident) (l1 l2 : list property_incident) :
  ~ cached zc x ->
  clean zc (l1 ++ relabel x :: l2) = clean zc (l1 ++ l2).
Proof.
  intros Hx. unfold clean. rewrite !filter_app, !filter_cons.
  destruct (decide (p_zip_code (relabel x) ≠ None)) as [Hsome|Hnone]; [|done].
  rewrite filter_cons.
  destruct (decide (has_coordinates zc (relabel x))) as [Hc|Hc]; [|done].
  destruct Hx. exact Hc.
Qed.

(** C4.  A row whose zip code has no entry in the cache (or that has no zip
    code) contributes to no record: the pipeline returns the same with and
    without it, and every zip code in the output is a key of the cache.
    With zip 75201 cached and 99999 not, only 75201 is in the output. *)
Theorem uncached_row_contributes_nothing (zc : gmap Z pyobj)
    (df1 : list incident) (x : incident) (df2 : list incident) :
  ~ cached zc x ->
  prepare_map_data (df1 ++ x :: df2) zc = prepare_map_data (df1 ++ df2) zc /\
  (forall rows, prepare_map_data (df1 ++ x :: df2) zc = Ok rows ->
     Forall (fun r => is_Some (zc !! m_zip_code r)) rows) /\
  (exists r, prepare_map_data two_zip_rows scenario_cache = Ok [r] /\
             m_zip_code r = 75201 /\ m_count r = 4).
Proof.
  intros Hx. split; [|split].
  - unfold prepare_map_data, filter_for_burglary_property_incidents.
    rewrite !filter_app, !filter_cons.
    destruct (decide (year_of_incident x = 2024)); [|done].
    rewrite filter_cons.
    destruct (decide (property_mask x = true)); [|by rewrite <- !filter_app].
    rewrite !fmap_app, fmap_cons.
    by rewrite (clean_drops_uncached zc x).
  - intros rows Hok. apply Forall_forall. intros r Hr.
    unfold prepare_map_data in Hok.
    destruct (map_rows_elem _ _ _ Hok r Hr) as (g & _ & Hann).
    apply annotate_ok in Hann as (Hz & _ & _ & _ & Hsome). by rewrite Hz.
  - eexists. split; [vm_compute; reflexivity|]. split; reflexivity.
Qed.

Lemma uncached_row_contributes_nothing_witness :
  prepare_map_data
    ([Incident 4 (Some 75201) "THEFT" 2024]
       ++ Incident 6 (Some 99999) "THEFT" 2024 :: []) scenario_cache
  = prepare_map_data ([Incident 4 (Some 75201) "THEFT" 2024] ++ []) scenario_cache.
Proof.
  apply (uncached_row_contributes_nothing scenario_cache
           [Incident 4 (Some 75201) "THEFT" 2024]
           (Incident 6 (Some 99999) "THEFT" 2024) []).
  intros (z & Hz & Hs). simpl in Hz. injection Hz as <-.
  vm_compute in Hs. destruct Hs as [v Hs]. discriminate Hs.
Defined.

End PipelineFacts.

(** ** Colors: C8 *)

Section ColorFacts.

Implicit Types (t : string) (types : list string) (colors : gmap string string).

Lemma last_index_None t types : last_index t types = None <-> t ∉ types.
Proof.
  induction types as [|x types IH]; simpl.
  - split; [intros _; apply not_elem_of_nil|done].
  - rewrite not_elem_of_cons. destruct (last_index t types) as [j|].
    + split; [done|]. intros [_ Hn]. by apply IH in Hn.
    + destruct (decide (x = t)) as [->|Hne].
      * split; [done|]. by intros [? _].
      * split; [|done]. intros _. split; [congruence|]. by apply IH.
Qed.

Lemma last_index_lookup t types (i : nat) :
  types !! i = Some t ->
  (forall j, (i < j)%nat -> types !! j <> Some t) ->
  last_index t types = Some i.
Proof.
  revert i. induction types as [|x types IH]; intros i Hi Hlast; [done|].
  destruct i as [|i]; simpl in *.
  - injection Hi as ->.
    assert (Hn : last_index t types = None).
    { apply last_index_None. intros Hin.
      apply list_elem_of_lookup in Hin as [j Hj].
      apply (Hlast (S j)); [lia|done]. }
    rewrite Hn. destruct (decide (t = t)); [done|congruence].
  - rewrite (IH i Hi); [done|].
    intros j Hj. apply (Hlast (S j)). lia.
Qed.

(** The first loop, for any reading of the numbers: a category's color is
    that of the index of its last occurrence. *)
Lemma color_loop_lookup {F} `{FloatLike F} types (i : nat) colors m t :
  color_loop i types colors = Some m ->
  m !! t = match last_index t types with
           | Some j => hex_color (i + j)
           | None => colors !! t
           end.
Proof.
  revert i colors. induction types as [|x types IH]; simpl; intros i colors Hm.
  - by injection Hm as ->.
  - destruct (hex_color i) as [hex|] eqn:Hhex; simpl in Hm; [|done].
    rewrite (IH _ _ Hm). destruct (last_index t types) as [j|].
    + f_equal. lia.
    + destruct (decide (x = t)) as [->|Hne].
      * rewrite lookup_insert_eq, Nat.add_0_r. done.
      * by rewrite lookup_insert_ne.
Qed.

Lemma color_loop_defined {F} `{FloatLike F} types (i : nat) colors :
  (forall j, (j < length types)%nat -> is_Some (hex_color (i + j))) ->
  is_Some (color_loop i types colors).
Proof.
  revert i colors. induction types as [|x types IH]; simpl; intros i colors Hdef.
  - eauto.
  - destruct (Hdef 0%nat) as [hex Hhex]; [lia|].
    rewrite Nat.add_0_r in Hhex. rewrite Hhex. simpl.
    apply IH. intros j Hj. replace (S i + j)%nat with (i + S j)%nat by lia.
    apply Hdef. lia.
Qed.

Lemma gray_loop_lookup types colors t :
  gray_loop types colors !! t
  = if decide (t ∈ types) then Some gray else colors !! t.
Proof.
  unfold gray_loop. revert colors.
  induction types as [|x types IH]; cbn [foldl]; intros colors.
  - rewrite decide_False; [done|]. apply not_elem_of_nil.
  - rewrite IH. destruct (decide (t ∈ types)) as [Hin|Hout].
    + rewrite decide_True; [done|]. apply elem_of_cons. by right.
    + destruct (decide (x = t)) as [->|Hne].
      * rewrite lookup_insert_eq. rewrite decide_True; [done|].
        apply elem_of_cons. by left.
      * rewrite lookup_insert_ne by done. rewrite decide_False; [done|].
        rewrite not_elem_of_cons. split; [congruence|done].
Qed.

(** The first fifty colors in binary64: [int()] never raises, and each
    color is the one that exact arithmetic gives for the formula of the
    specification. *)
Lemma first_fifty_colors :
  forallb (fun i => match hex_color (F:=float) i with
                    | Some hex => bool_decide (spec_color i = Some hex)
                    | None => false
                    end) (seq 0 50) = true.
Proof. vm_compute. reflexivity. Qed.

Lemma hex_color_b64 (i : nat) :
  (i < 50)%nat ->
  is_Some (hex_color (F:=float) i) /\ hex_color (F:=float) i = spec_color i.
Proof.
  intros Hi. pose proof first_fifty_colors as Hall.
  rewrite forallb_forall in Hall.
  specialize (Hall i). rewrite in_seq in Hall.
  destruct (hex_color (F:=float) i) as [hex|]; [|by discriminate Hall; lia].
  split; [eauto|]. symmetry. eapply bool_decide_eq_true_1. apply Hall. lia.
Qed.

(** What [generate_colors_for_incident_types] returns, key by key. *)
Lemma generate_colors_lookup types :
  exists colors,
    generate_colors_for_incident_types (F:=float) types 50 = Some colors /\
    forall t, colors !! t =
      if decide (t ∈ drop 50 types) then Some gray
      else j ← last_index t (take 50 types); spec_color j.
Proof.
  unfold generate_colors_for_incident_types.
  destruct (color_loop_defined (F:=float) (take 50 types) 0 ∅) as [m Hm].
  { intros j Hj. apply hex_color_b64. rewrite length_take in Hj. lia. }
  rewrite Hm. simpl. eexists; split; [reflexivity|]. intros t.
  rewrite gray_loop_lookup. destruct (decide (t ∈ drop 50 types)); [done|].
  rewrite (color_loop_lookup _ _ _ _ t Hm), lookup_empty.
  destruct (last_index t (take 50 types)) as [j|] eqn:Hj; simpl; [|done].
  apply hex_color_b64.
  assert (Hlen : (j < length (take 50 types))%nat).
  { clear -Hj. revert j Hj. induction (take 50 types) as [|x l IH]; simpl; intros j Hj; [done|].
    destruct (last_index t l) as [j'|].
    - injection Hj as <-. specialize (IH j' eq_refl). lia.
    - destruct (decide (x = t)); [|done]. injection Hj as <-. lia. }
  rewrite length_take in Hlen. lia.
Qed.

(** The constant of the code agrees with the digits the specification
    quotes for the golden-ratio conjugate. *)
Lemma golden_ratio_digits :
  (6180339887 # 10000000000 <= golden_ratio < 6180339888 # 10000000000)%Q.
Proof. split; [discriminate|reflexivity]. Qed.



End ColorFacts.

(** ** The cache file: C9 *)

Section CacheFacts.

Lemma number_chars_digits d : Forall (fun c => is_digit c = true) (number_chars d).
Proof.
  unfold number_chars. induction d; simpl; constructor; done.
Qed.

Lemma number_chars_nonempty d : d <> Decimal.Nil -> number_chars d <> [].
Proof. destruct d; done. Qed.

Lemma digit_not_space c : is_digit c = true -> is_space c = false.
Proof.
  unfold is_digit, is_space. intros H.
  apply andb_true_iff in H as [H1 H2].
  apply Nat.leb_le in H1. apply Nat.leb_le in H2.
  apply orb_false_iff. split; apply andb_false_iff.
  - right. apply Nat.leb_gt. lia.
  - right. apply Nat.leb_gt. lia.
Qed.

Lemma lstrip_id (cs : list ascii) :
  Forall (fun c => is_space c = false) cs -> lstrip cs = cs.
Proof. destruct 1 as [|c cs Hc _]; simpl; [done|]. by rewrite Hc. Qed.

Lemma strip_id (cs : list ascii) :
  Forall (fun c => is_space c = false) cs -> strip cs = cs.
Proof.
  intros H. unfold strip. rewrite (lstrip_id cs H).
  rewrite lstrip_id by by apply Forall_reverse.
  apply reverse_involutive.
Qed.

Lemma digits_id (cs : list ascii) (b : bool) :
  Forall (fun c => is_digit c = true) cs ->
  cs <> [] \/ b = true ->
  digits b cs = Some cs.
Proof.
  intros H. revert b. induction H as [|c cs Hc _ IH]; simpl; intros b Hb.
  - destruct Hb as [?| ->]; done.
  - rewrite Hc. rewrite IH; [done|by right].
Qed.

Lemma unsigned_of_number d :
  d <> Decimal.Nil -> unsigned_of (number_chars d) = Some (Z.of_uint d).
Proof.
  intros Hd. unfold unsigned_of.
  rewrite digits_id; [|apply number_chars_digits|left; by apply number_chars_nonempty].
  simpl. unfold number_chars.
  rewrite string_of_list_ascii_of_string, DecimalString.NilEmpty.usu. done.
Qed.

Lemma number_chars_no_space d :
  Forall (fun c => is_space c = false) (number_chars d).
Proof.
  eapply Forall_impl; [apply number_chars_digits|]. apply digit_not_space.
Qed.

(** [int(str(n)) == n]. *)
Lemma py_int_str (n : Z) : py_int (py_str_int n) = Ok n.
Proof.
  unfold py_int, py_str_int.
  assert (Hpos : forall d, d <> Decimal.Nil ->
            match strip (number_chars d) with
            | "-"%char :: rest => Z.opp <$> unsigned_of rest
            | "+"%char :: rest => unsigned_of rest
            | cs => unsigned_of cs
            end = Some (Z.of_uint d)).
  { intros d Hd. rewrite strip_id by apply number_chars_no_space.
    rewrite <- (unsigned_of_number d Hd).
    unfold number_chars. destruct d; try done. }
  destruct n as [|p|p]; simpl.
  - reflexivity.
  - pose proof (DecimalPos.Unsigned.to_uint_nonnil p) as Hnil.
    unfold DecimalString.NilZero.string_of_uint.
    destruct (Pos.to_uint p) as [| | | | | | | | | |] eqn:Hp; try done;
      change (list_ascii_of_string (DecimalString.NilEmpty.string_of_uint ?d))
        with (number_chars d); rewrite Hpos by done;
      rewrite <- Hp; f_equal;
      exact (DecimalZ.of_to (Zpos p)).
  - pose proof (DecimalPos.Unsigned.to_uint_nonnil p) as Hnil.
    assert (Hstr : list_ascii_of_string
              (DecimalString.NilZero.string_of_uint (Pos.to_uint p))
              = number_chars (Pos.to_uint p)).
    { unfold DecimalString.NilZero.string_of_uint. by destruct (Pos.to_uint p). }
    rewrite Hstr. rewrite strip_id.
    + rewrite unsigned_of_number by done. simpl. f_equal.
      exact (DecimalZ.of_to (Zneg p)).
    + constructor; [done|apply number_chars_no_space].
Qed.

Lemma int_keys_dump (l : list (Z * pyobj)) (acc : gmap Z pyobj) :
  int_keys ((fun kv => (py_str_int kv.1, to_json kv.2)) <$> l) acc
  = Ok (foldl (fun a kv => <[kv.1 := to_json kv.2]> a) acc l).
Proof.
  revert acc. induction l as [|[k v] l IH]; csimpl; intros acc; [done|].
  rewrite py_int_str. simpl. apply IH.
Qed.

Lemma foldl_insert_lookup (l : list (Z * pyobj)) (acc : gmap Z pyobj) (k : Z) :
  NoDup l.*1 ->
  foldl (fun a kv => <[kv.1 := to_json kv.2]> a) acc l !! k
  = match list_to_map (M:=gmap Z pyobj) l !! k with
    | Some v => Some (to_json v)
    | None => acc !! k
    end.
Proof.
  revert acc. induction l as [|[k' v] l IH]; csimpl; intros acc Hnd.
  - by rewrite lookup_empty.
  - apply NoDup_cons in Hnd as [Hk' Hnd]. rewrite IH by done.
    destruct (decide (k' = k)) as [->|Hne].
    + rewrite lookup_insert_eq.
      rewrite (not_elem_of_list_to_map_1 l k) by done.
      by rewrite lookup_insert_eq.
    + by rewrite !lookup_insert_ne by done.
Qed.

(** Saving any in-memory cache and loading the file gives the same keys,
    each with the JSON form of its value. *)
Lemma load_dump (coordinates : gmap Z pyobj) :
  load_coordinates_cache (Json (dump coordinates)) = Some (to_json <$> coordinates).
Proof.
  unfold load_coordinates_cache, dump. simpl. rewrite int_keys_dump. f_equal.
  apply map_eq. intros k.
  rewrite foldl_insert_lookup by apply NoDup_fst_map_to_list.
  rewrite list_to_map_to_list, lookup_empty, lookup_fmap.
  by destruct (coordinates !! k).
Qed.

(** C9.  An integer-keyed coordinate mapping, held in memory as tuples
    [(lat, lon)], is saved and loaded back: the load succeeds, the keys are
    the same integers (written as strings in the file, read back with
    [int]), and each value, now a two-element list, holds the same pair. *)
Theorem cache_round_trip (coordinates : gmap Z (float * float)) :
  exists f loaded,
    save_coordinates_cache true (coordinate_tuple <$> coordinates) = Ok f /\
    load_coordinates_cache f = Some loaded /\
    dom loaded = dom coordinates /\
    (forall k, loaded !! k ≫= as_pair = coordinates !! k) /\
    (forall k c, coordinates !! k = Some c ->
       dict_get (py_str_int k)
         match f with Json (PyDict items) => items | _ => [] end
       = Some (PyList [PyFloat c.1; PyFloat c.2]) /\
       loaded !! k = Some (PyList [PyFloat c.1; PyFloat c.2])).
Proof.
  eexists _, _. split; [reflexivity|]. split; [apply load_dump|].
  assert (Hlook : forall k, (to_json <$> (coordinate_tuple <$> coordinates)) !! k
            = (fun c => PyList [PyFloat c.1; PyFloat c.2]) <$> coordinates !! k).
  { intros k. rewrite !lookup_fmap. by destruct (coordinates !! k). }
  split; [|split].
  - by rewrite !dom_fmap_L.
  - intros k. rewrite Hlook. by destruct (coordinates !! k) as [[lat lon]|].
  - intros k c Hk. split; [|by rewrite Hlook, Hk].
    pose proof (load_dump (coordinate_tuple <$> coordinates)) as Hload.
    unfold dump. simpl.
    assert (Hin : (k, coordinate_tuple c) ∈ map_to_list (coordinate_tuple <$> coordinates)).
    { apply elem_of_map_to_list. by rewrite lookup_fmap, Hk. }
    pose proof (NoDup_fst_map_to_list (coordinate_tuple <$> coordinates)) as Hnd.
    revert Hin Hnd. generalize (map_to_list (coordinate_tuple <$> coordinates)).
    intros l. induction l as [|[k' v'] l IH]; csimpl; intros Hin Hnd.
    + by apply elem_of_nil in Hin.
    + apply NoDup_cons in Hnd as [Hk' Hnd].
      apply elem_of_cons in Hin as [[= <- <-]|Hin].
      * assert (Hnone : dict_get (py_str_int k)
                  ((fun kv => (py_str_int kv.1, to_json kv.2)) <$> l) = None).
        { clear -Hk'. induction l as [|[k2 v2] l IH]; csimpl; [done|].
          csimpl in Hk'. apply not_elem_of_cons in Hk' as [Hne Hk'].
          rewrite IH by done.
          destruct (String.eqb_spec (py_str_int k2) (py_str_int k)) as [Heq|]; [|done].
          destruct Hne. apply (f_equal py_int) in Heq.
          rewrite !py_int_str in Heq. by injection Heq. }
        rewrite Hnone. by rewrite String.eqb_refl.
      * by rewrite (IH Hin Hnd).
Qed.

End CacheFacts.

(** ** Geocoding: C6 *)

Section GeocodeFacts.

Implicit Types (env : environment) (w : world) (z : Z).

(** One call of [geocode_zip_code]: its value and its effects. *)
Lemma geocode_zip_code_run env z (delay : Q) w :
  geocode_zip_code env z delay w =
    if Qle_bool 0 delay
    then (Ok (resolved env z),
          {| cache_file := cache_file w;
             trace := trace w ++ [Sleep delay; HttpGet (query_of z)] |})
    else (Ok None, w).
Proof.
  unfold geocode_zip_code, try_except, bind, sleep, requests_get, lift, ret, resolved, emit.
  destruct (Qle_bool 0 delay); [|done]. simpl.
  rewrite <- app_assoc. simpl.
  destruct (http_get env (query_of z)) as [|status body]; [done|].
  simpl. destruct body as [data|];
    (destruct (Z.leb 400 status && Z.ltb status 600)%bool; [done|]); [|done].
  simpl.
  destruct (py_truthy data); [|done].
  destruct (field env data "lat") as [lat|]; [|done].
  destruct (field env data "lon") as [lon|]; done.
Qed.

(** C6.  [geocode_zip_code] always returns: a coordinate pair or [None],
    never an exception.  It returns [None] when the request fails, when
    the status is an error, when the body is not JSON, when the answer is
    empty and when the fields cannot be read as floats.  It sends at most
    one request (none if the sleep fails) and does not touch the cache
    file. *)
Theorem geocode_returns_or_none env z (delay : Q) w :
  exists r sent,
    geocode_zip_code env z delay w
      = (Ok r, {| cache_file := cache_file w; trace := trace w ++ sent |}) /\
    (length (queries sent) <= 1)%nat /\
    (r <> None -> queries sent = [query_of z]) /\
    (http_get env (query_of z) = NoResponse -> r = None) /\
    (forall status body, http_get env (query_of z) = Response status body ->
       (400 <= status < 600 \/ body = None) -> r = None) /\
    (forall status data, http_get env (query_of z) = Response status (Some data) ->
       py_truthy data = false \/
       (forall lat, field env data "lat" <> Ok lat) \/
       (forall lon, field env data "lon" <> Ok lon) -> r = None).
Proof.
  rewrite geocode_zip_code_run. destruct (Qle_bool 0 delay).
  - exists (resolved env z), [Sleep delay; HttpGet (query_of z)].
    split; [done|]. split; [simpl; lia|]. split; [done|].
    unfold resolved. split; [by intros ->|]. split.
    + intros status body -> [Hs| ->];
        [|by destruct (Z.leb 400 status && Z.ltb status 600)%bool].
      replace (Z.leb 400 status && Z.ltb status 600)%bool with true; [by destruct body|].
      symmetry. apply andb_true_iff. split; [apply Z.leb_le|apply Z.ltb_lt]; lia.
    + intros status data -> Hbad.
      destruct (Z.leb 400 status && Z.ltb status 600)%bool; [done|].
      destruct Hbad as [-> |[Hlat|Hlon]]; [done| |].
      * destruct (py_truthy data); [|done].
        destruct (field env data "lat") as [lat|]; [by destruct (Hlat lat)|done].
      * destruct (py_truthy data); [|done].
        destruct (field env data "lat") as [lat|]; [|done].
        destruct (field env data "lon") as [lon|]; [by destruct (Hlon lon)|done].
  - exists None, []. rewrite app_nil_r. destruct w. simpl.
    split; [done|]. split; [lia|]. repeat split; done.
Qed.

End GeocodeFacts.

(** ** The cache fill and [main]: C5, C7 *)

Section FillFacts.

Implicit Types (env : environment) (w : world) (z : Z) (df : list incident).

Lemma geocode_loop_run env (zs : list Z) (coordinates : gmap Z pyobj) w :
  geocode_loop env zs coordinates w =
    (Ok (foldl (record_coords env) coordinates zs),
     {| cache_file := cache_file w; trace := trace w ++ (zs ≫= call_events) |}).
Proof.
  revert coordinates w. induction zs as [|z zs IH]; intros coordinates w.
  - simpl. unfold ret. rewrite app_nil_r. by destruct w.
  - cbn [geocode_loop]. unfold bind. rewrite geocode_zip_code_run.
    change (Qle_bool 0 default_delay) with true. cbn iota.
    rewrite IH. cbn [cache_file trace foldl]. unfold record_coords at 2.
    f_equal. f_equal. rewrite <- app_assoc. done.
Qed.

Lemma foldl_record_lookup env (zs : list Z) (coordinates : gmap Z pyobj) z :
  foldl (record_coords env) coordinates zs !! z =
    if decide (z ∈ zs)
    then match resolved env z with
         | Some c => Some (coordinate_tuple c)
         | None => coordinates !! z
         end
    else coordinates !! z.
Proof.
  revert coordinates. induction zs as [|x zs IH]; intros coordinates; cbn [foldl].
  - rewrite decide_False; [done|]. apply not_elem_of_nil.
  - rewrite IH. unfold record_coords at 1 2.
    destruct (decide (z ∈ zs)) as [Hin|Hout].
    + rewrite decide_True by (apply elem_of_cons; by right).
      destruct (resolved env z) as [c|] eqn:Hz; [done|].
      destruct (decide (x = z)) as [->|Hne]; [by rewrite Hz|].
      destruct (resolved env x); [by rewrite lookup_insert_ne|done].
    + destruct (decide (x = z)) as [->|Hne].
      * rewrite decide_True by (apply elem_of_cons; by left).
        destruct (resolved env z) as [c|]; [by rewrite lookup_insert_eq|done].
      * rewrite decide_False by (rewrite not_elem_of_cons; split; [congruence|done]).
        destruct (resolved env x); [by rewrite lookup_insert_ne|done].
Qed.

(** The cache that a fill builds: the resolved zip codes of the data, each
    with the tuple that was returned for it, and nothing else. *)
Lemma fill_result_lookup env df z :
  fill_result env df !! z =
    if decide (Some z ∈ zip_code <$> df)
    then coordinate_tuple <$> resolved env z else None.
Proof.
  unfold fill_result. rewrite foldl_record_lookup, lookup_empty.
  assert (Hiff : z ∈ unique (omap zip_code df) <-> Some z ∈ zip_code <$> df).
  { rewrite elem_of_unique, list_elem_of_omap, list_elem_of_fmap.
    split; intros (r & H1 & H2); exists r; split; done. }
  destruct (decide (z ∈ unique (omap zip_code df))) as [Hin|Hout].
  - rewrite decide_True by by apply Hiff. by destruct (resolved env z).
  - rewrite decide_False; [done|]. by rewrite <- Hiff.
Qed.

(** The fill of lines 381-398, once the user has agreed. *)
Lemma fill_cache_run env df w :
  String.eqb (str_lower (answer env)) "y" = true ->
  fill_cache env df w =
    let built := fill_result env df in
    let sent := Prompt :: (unique (omap zip_code df) ≫= call_events) in
    if decide (built = ∅)
    then (Ok (inl CacheNotCreated),
          {| cache_file := cache_file w; trace := trace w ++ sent |})
    else if disk_writable env
    then (Ok (inr built),
          {| cache_file := Json (dump built);
             trace := trace w ++ sent ++ [WriteCache (dump built)] |})
    else (Raise OSError,
          {| cache_file := cache_file w; trace := trace w ++ sent |}).
Proof.
  intros Hy. unfold fill_cache, bind, create_zip_coordinates_cache.
  rewrite Hy. cbn [negb]. rewrite geocode_loop_run. fold (fill_result env df).
  cbn [emit cache_file trace]. cbv zeta.
  rewrite <- app_assoc. cbn [app].
  destruct (decide (fill_result env df = ∅)) as [Hempty|Hsome]; [done|].
  unfold save_cache, save_coordinates_cache, ret.
  destruct (disk_writable env); cbn [cache_file trace]; [|done].
  rewrite <- !app_assoc. done.
Qed.

Lemma fill_cache_cancelled env df w :
  String.eqb (str_lower (answer env)) "y" = false ->
  fill_cache env df w =
    (Ok (inl Cancelled),
     {| cache_file := cache_file w; trace := trace w ++ [Prompt] |}).
Proof. intros Hn. unfold fill_cache, bind. by rewrite Hn. Qed.

Lemma writes_app (t1 t2 : list event) : writes (t1 ++ t2) = writes t1 ++ writes t2.
Proof. unfold writes. apply omap_app. Qed.

Lemma queries_app (t1 t2 : list event) : queries (t1 ++ t2) = queries t1 ++ queries t2.
Proof. unfold queries. apply omap_app. Qed.

Lemma writes_prompt (t : list event) : writes (Prompt :: t) = writes t.
Proof. reflexivity. Qed.

Lemma queries_prompt (t : list event) : queries (Prompt :: t) = queries t.
Proof. reflexivity. Qed.

Lemma calls_writes (zs : list Z) : writes (zs ≫= call_events) = [].
Proof. induction zs as [|z zs IH]; [done|]. csimpl. done. Qed.

Lemma calls_queries (zs : list Z) : queries (zs ≫= call_events) = query_of <$> zs.
Proof. induction zs as [|z zs IH]; [done|]. csimpl. by f_equal. Qed.

(** [main] leaves the world the way the cache stage left it. *)
Lemma main_world env w :
  (main env w).2 =
    match police_data env with
    | None => w
    | Some df =>
        match load_coordinates_cache (cache_file w) with
        | Some _ => w
        | None => (fill_cache env df w).2
        end
    end.
Proof.
  unfold main. destruct (police_data env) as [df|]; [|done].
  unfold bind at 1. destruct (load_coordinates_cache (cache_file w)) as [zc|].
  - unfold bind, ret, lift. destruct (prepare_map_data df zc) as [rows|]; [|done].
    by destruct (Nat.eqb (length rows) 0).
  - unfold bind. destruct (fill_cache env df w) as [[[stop|zc]|e] w']; [done| |done].
    unfold lift. destruct (prepare_map_data df zc) as [rows|]; [|done].
    by destruct (Nat.eqb (length rows) 0).
Qed.

(** C5 (as the code has it).  When no cache can be loaded and the user
    agrees, the fill processes every zip code of the data and then: if at
    least one was resolved, the cache is written exactly once (however many
    others failed), the file then holds exactly the resolved keys with
    their coordinates; if none was resolved nothing is written and the run
    stops; if the file cannot be written the [OSError] reaches the caller. *)
Theorem fill_saves_once_if_any env df w :
  police_data env = Some df ->
  load_coordinates_cache (cache_file w) = None ->
  String.eqb (str_lower (answer env)) "y" = true ->
  let built := fill_result env df in
  let after := (main env w).2 in
  writes (trace after) = writes (trace w)
    ++ (if decide (built = ∅) then []
        else if disk_writable env then [dump built] else []) /\
  cache_file after =
    (if decide (built = ∅) then cache_file w
     else if disk_writable env then Json (dump built) else cache_file w) /\
  (forall z, built !! z =
     if decide (Some z ∈ zip_code <$> df)
     then coordinate_tuple <$> resolved env z else None) /\
  (if decide (built = ∅) then (main env w).1 = Ok CacheNotCreated
   else if disk_writable env
   then load_coordinates_cache (cache_file after) = Some (to_json <$> built)
   else (main env w).1 = Raise OSError).
Proof.
  intros Hdf Hload Hy built after.
  assert (Hafter : after = (fill_cache env df w).2).
  { unfold after. by rewrite main_world, Hdf, Hload. }
  assert (Hmain : main env w =
            match fill_cache env df w with
            | (Ok (inr zc), w') =>
                match prepare_map_data df zc with
                | Ok rows => (Ok (if Nat.eqb (length rows) 0 then NothingToMap
                                  else MapWritten rows), w')
                | Raise e => (Raise e, w')
                end
            | (Ok (inl stop), w') => (Ok stop, w')
            | (Raise e, w') => (Raise e, w')
            end).
  { unfold main. rewrite Hdf. unfold bind at 1. rewrite Hload. unfold bind.
    destruct (fill_cache env df w) as [[[stop|zc]|e] w']; [done| |done].
    unfold lift, ret. destruct (prepare_map_data df zc) as [rows|]; [|done].
    by destruct (Nat.eqb (length rows) 0). }
  rewrite Hafter, Hmain. rewrite (fill_cache_run env df w Hy). cbv zeta. fold built.
  split; [|split; [|split]].
  - destruct (decide (built = ∅)); [|destruct (disk_writable env)];
      cbn [snd trace]; rewrite ?writes_app, writes_prompt, calls_writes; done.
  - by destruct (decide (built = ∅)); [|destruct (disk_writable env)].
  - intros z. apply fill_result_lookup.
  - destruct (decide (built = ∅)); [done|].
    destruct (disk_writable env); [|done]. apply load_dump.
Qed.

Lemma fill_saves_once_if_any_witness :
  writes (trace (main half_resolved (World Missing [])).2)
  = [PyDict [("75201"%string, PyList [PyFloat 32.78; PyFloat (-96.80)])]].
Proof.
  pose proof (fill_saves_once_if_any half_resolved
                [Incident 1 (Some 75201) "THEFT" 2024;
                 Incident 1 (Some 75202) "THEFT" 2024]
                (World Missing []) eq_refl eq_refl eq_refl) as [Hw _].
  rewrite Hw. vm_compute. reflexivity.
Defined.

(** C5 (as the specification states it) fails when every lookup fails: the
    pass runs over the keys, and the cache is saved zero times, not once. *)
Lemma no_save_when_nothing_resolved :
  queries (trace (main offline (World Missing [])).2)
    = ["75201, Dallas, Texas, USA"%string] /\
  writes (trace (main offline (World Missing [])).2) = [] /\
  length (writes (trace (main offline (World Missing [])).2)) <> 1%nat /\
  cache_file (main offline (World Missing [])).2 = Missing /\
  (main offline (World Missing [])).1 = Ok CacheNotCreated.
Proof. vm_compute. repeat split; try reflexivity. discriminate. Qed.

(** C7 (as the code has it).  The queries that a run sends are: for every
    distinct zip code of the data, one query, in order of first appearance,
    when no cache could be loaded and the user agreed (which is the
    specification's [distinct(keys) - keys(cache)] for the empty cache);
    none at all when a cache was loaded.  So no key of a loaded cache is
    ever queried. *)
Theorem resolve_all_or_nothing env w :
  exists sent,
    queries (trace (main env w).2) = queries (trace w) ++ sent /\
    sent = query_of <$>
      match police_data env, load_coordinates_cache (cache_file w) with
      | Some df, None =>
          if String.eqb (str_lower (answer env)) "y"
          then spec_unresolved df ∅ else []
      | _, _ => []
      end /\
    (forall df, spec_unresolved df ∅ = unique (omap zip_code df)) /\
    (forall cache, load_coordinates_cache (cache_file w) = Some cache -> sent = []).
Proof.
  assert (Hspec : forall df, spec_unresolved df ∅ = unique (omap zip_code df)).
  { intros df. unfold spec_unresolved.
    induction (unique (omap zip_code df)) as [|z zs IH]; [done|].
    rewrite filter_cons, decide_True by apply lookup_empty. by rewrite IH. }
  eexists. split; [|split; [reflexivity|split; [exact Hspec|]]].
  - rewrite main_world.
    destruct (police_data env) as [df|]; [|by rewrite app_nil_r].
    destruct (load_coordinates_cache (cache_file w)) as [zc|]; [by rewrite app_nil_r|].
    destruct (String.eqb (str_lower (answer env)) "y") eqn:Hy.
    + rewrite (fill_cache_run env df w Hy). cbv zeta. rewrite Hspec.
      destruct (decide (fill_result env df = ∅)); [|destruct (disk_writable env)];
        cbn [snd trace]; rewrite ?queries_app, queries_prompt, calls_queries;
        by rewrite ?app_nil_r.
    + rewrite (fill_cache_cancelled env df w Hy). cbn [snd trace].
      by rewrite queries_app.
  - intros cache ->. by destruct (police_data env).
Qed.

(** C7 (as the specification states it) fails when a cache is found that
    lacks a key of the data: the specification's set of keys to resolve is
    [75202], and the run resolves nothing. *)
Lemma missing_key_not_resolved :
  exists cache,
    load_coordinates_cache partly_cached_file = Some cache /\
    spec_unresolved [Incident 1 (Some 75201) "THEFT" 2024;
                     Incident 1 (Some 75202) "THEFT" 2024] cache = [75202] /\
    queries (trace (main partly_cached (World partly_cached_file [])).2) = [] /\
    queries (trace (main partly_cached (World partly_cached_file [])).2)
      <> query_of <$> [75202].
Proof.
  eexists. split; [vm_compute; reflexivity|].
  split; [vm_compute; reflexivity|].
  split; [vm_compute; reflexivity|]. vm_compute. discriminate.
Qed.

End FillFacts.

(* ===================================================================== *)
(** * Further properties of the module *)
(* ===================================================================== *)

(** ** The keyword mask *)

Section MaskFacts.

#[local] Open Scope string_scope.

Lemma starts_with_spec (p s : string) :
  starts_with p s = true <-> exists post, s = p ++ post.
Proof.
  revert s. induction p as [|a p IH]; intros s; simpl.
  - split; [intros _; by exists s|done].
  - destruct s as [|b s]; simpl.
    + split; [done|]. by intros [post [=]].
    + rewrite andb_true_iff, IH. split.
      * intros [Hab [post ->]]. apply Ascii.eqb_eq in Hab as ->. by exists post.
      * intros [post [= -> ->]]. split; [apply Ascii.eqb_refl|by exists post].
Qed.

Lemma str_contains_spec (needle s : string) :
  str_contains needle s = true <-> exists pre post, s = pre ++ needle ++ post.
Proof.
  induction s as [|b s IH]; simpl.
  - rewrite orb_false_r, starts_with_spec. split.
    + intros [post ->]. by exists "", post.
    + intros ([|c pre] & post & Heq); [by exists post|done].
  - rewrite orb_true_iff, starts_with_spec, IH. split.
    + intros [[post ->]|(pre & post & ->)].
      * by exists "", post.
      * by exists (String b pre), post.
    + intros ([|c pre] & post & Heq).
      * left. by exists post.
      * right. injection Heq as -> ->. by exists pre, post.
Qed.


End MaskFacts.

(** ** The popup order *)

Section PopupFacts.

Implicit Types (kv : string * Z) (d l : list (string * Z)).

Lemma insert_desc_perm kv l : insert_desc kv l ≡ₚ kv :: l.
Proof.
  induction l as [|kv' l IH]; simpl; [done|].
  destruct (Z.leb kv'.2 kv.2); [done|].
  rewrite IH. apply Permutation_swap.
Qed.

Lemma insert_desc_sorted kv l :
  StronglySorted (fun a b => b.2 <= a.2) l ->
  StronglySorted (fun a b => b.2 <= a.2) (insert_desc kv l).
Proof.
  induction 1 as [|kv' l Hs IH Hall]; simpl.
  - repeat constructor.
  - destruct (Z.leb_spec kv'.2 kv.2) as [Hle|Hgt].
    + constructor; [by constructor|]. constructor; [done|].
      eapply Forall_impl; [exact Hall|]. simpl. intros x Hx. lia.
    + constructor; [done|]. rewrite insert_desc_perm. constructor; [lia|done].
Qed.

Lemma insert_desc_filter kv l (c : Z) :
  filter (fun x => x.2 = c) (insert_desc kv l)
  = filter (fun x => x.2 = c) (kv :: l).
Proof.
  induction l as [|kv' l IH]; simpl; [done|].
  destruct (Z.leb_spec kv'.2 kv.2) as [Hle|Hgt]; [done|].
  rewrite filter_cons, IH, !filter_cons.
  destruct (decide (kv'.2 = c)) as [Hk'|Hk']; [|done].
  destruct (decide (kv.2 = c)) as [Hk|Hk]; [lia|done].
Qed.

(** The incident list of a popup (lines 278-280) holds the items of the
    breakdown, largest count first, and items with equal counts stay in the
    order the breakdown has them. *)
Theorem sorted_incidents_stable_descending d :
  sorted_incidents d ≡ₚ d /\
  StronglySorted (fun a b => b.2 <= a.2) (sorted_incidents d) /\
  (forall c : Z, filter (fun x => x.2 = c) (sorted_incidents d)
                 = filter (fun x => x.2 = c) d).
Proof.
  unfold sorted_incidents. induction d as [|kv d (IHp & IHs & IHf)]; simpl.
  - split; [done|]. split; [constructor|done].
  - split; [|split].
    + by rewrite insert_desc_perm, IHp.
    + by apply insert_desc_sorted.
    + intros c. rewrite insert_desc_filter, !filter_cons, IHf. done.
Qed.

End PopupFacts.

(** ** The rows that reach the grouping *)

Section QualifyFacts.

Implicit Types (zc : gmap Z pyobj) (df : list incident) (r : incident).

(** The three filters of [prepare_map_data] in one. *)
Lemma clean_rows zc df :
  clean zc (filter_for_burglary_property_incidents
              (filter (fun r => year_of_incident r = 2024) df))
  = relabel <$> filter (qualifies zc) df.
Proof.
  unfold clean, filter_for_burglary_property_incidents.
  induction df as [|r df IH]; [done|].
  rewrite (filter_cons (qualifies zc)), (filter_cons (fun r => year_of_incident r = 2024)).
  destruct (decide (year_of_incident r = 2024)) as [Hy|Hy].
  - rewrite filter_cons. destruct (decide (property_mask r = true)) as [Hm|Hm].
    + rewrite fmap_cons, filter_cons.
      destruct (decide (p_zip_code (relabel r) ≠ None)) as [Hz|Hz].
      * rewrite filter_cons.
        destruct (decide (has_coordinates zc (relabel r))) as [Hc|Hc].
        -- rewrite decide_True by done. rewrite fmap_cons. by rewrite <- IH.
        -- rewrite decide_False; [done|]. by intros (_ & _ & Hq).
      * rewrite decide_False; [done|]. intros (_ & _ & (z & Hq & _)).
        apply Hz. simpl. by rewrite Hq.
    + rewrite decide_False; [done|]. by intros (_ & Hq & _).
  - rewrite decide_False; [done|]. by intros (Hq & _).
Qed.

Lemma tally_count_sum (p : Z * string -> bool) (key : incident -> Z * string) df :
  tally p ((fun r => (key r, count r)) <$> df)
  = count_sum (filter (fun r => p (key r) = true) df).
Proof.
  induction df as [|r df IH]; csimpl; [done|].
  rewrite filter_cons. destruct (p (key r)) eqn:Hp.
  - rewrite decide_True by done. simpl. by rewrite IH.
  - rewrite decide_False by done. done.
Qed.

Lemma count_sum_ext (P Q : incident -> Prop)
    `{!forall r, Decision (P r)} `{!forall r, Decision (Q r)} df :
  (forall r, r ∈ df -> P r <-> Q r) ->
  count_sum (filter P df) = count_sum (filter Q df).
Proof.
  induction df as [|r df IH]; intros Hpq; [done|].
  rewrite !filter_cons.
  assert (Hr : P r <-> Q r) by (apply Hpq, elem_of_cons; by left).
  assert (Hrest : count_sum (filter P df) = count_sum (filter Q df)).
  { apply IH. intros x Hx. apply Hpq, elem_of_cons. by right. }
  destruct (decide (P r)), (decide (Q r)); simpl; try tauto; by rewrite Hrest.
Qed.

End QualifyFacts.

(** ** What [prepare_map_data] returns *)

Section PrepareFacts.

Implicit Types (zc : gmap Z pyobj) (df : list incident) (r : incident).

Lemma map_rows_proj {A B C} (f : A -> result B) (g : B -> C) (h : A -> C)
    (l : list A) (ys : list B) :
  (forall x y, f x = Ok y -> g y = h x) ->
  map_rows f l = Ok ys -> g <$> ys = h <$> l.
Proof.
  intros Hgh. revert ys. induction l as [|x l IH]; simpl; intros ys Hok.
  - by injection Hok as <-.
  - destruct (f x) as [y|] eqn:Hfx; simpl in Hok; [|done].
    destruct (map_rows f l) as [ys'|]; simpl in Hok; [|done].
    injection Hok as <-. csimpl. by rewrite (Hgh x y Hfx), (IH ys' eq_refl).
Qed.

Lemma qualifies_zip_of zc r z :
  qualifies zc r -> (zip_of (relabel r) = z <-> zip_code r = Some z).
Proof.
  intros (_ & _ & (z' & Hz & _)). unfold zip_of. simpl. rewrite Hz. simpl.
  split; [by intros ->|by intros [= ->]].
Qed.

(** A row of the frame grouped by zip code and category. *)
Lemma grouped_entry zc df z cat v :
  ((z, cat), v) ∈ grouped (relabel <$> filter (qualifies zc) df) ->
  cat = property_crime /\
  (exists r, r ∈ df /\ qualifies zc r /\ zip_code r = Some z) /\
  v = count_sum (filter (fun r => qualifies zc r /\ zip_code r = Some z) df).
Proof.
  intros Hin. unfold grouped in Hin. rewrite <- list_fmap_compose in Hin.
  set (key := fun r => (zip_of (relabel r), property_crime)) in *.
  assert (Hkey : (z, cat) ∈ ((fun r => (key r, count r)) <$> filter (qualifies zc) df).*1).
  { apply groupby_sum_keys. apply list_elem_of_fmap. by exists ((z, cat), v). }
  apply list_elem_of_fmap in Hkey as ([k0 v0] & Hk0 & Hkey). simpl in Hk0. subst k0.
  apply list_elem_of_fmap in Hkey as (r0 & [= Hz Hc Hv] & Hr0).
  apply list_elem_of_filter in Hr0 as [Hq0 Hr0].
  split; [done|]. split.
  { exists r0. split; [done|]. split; [done|]. by apply (qualifies_zip_of zc r0 z). }
  rewrite <- (tally_single _ (z, cat) v (groupby_sum_NoDup _) Hin).
  rewrite groupby_sum_tally.
  rewrite (tally_count_sum (fun k => bool_decide (k = (z, cat))) key).
  rewrite list_filter_filter. apply count_sum_ext. intros r Hr.
  rewrite bool_decide_eq_true. unfold key. split.
  - intros [[= Hz' _] Hq]. split; [done|]. by apply (qualifies_zip_of zc r z).
  - intros [Hq Hz']. split; [|done]. f_equal; [|done].
    by apply (qualifies_zip_of zc r z).
Qed.

(** A row of the frame grouped by zip code and original type. *)
Lemma details_entry zc df z t v :
  ((z, t), v) ∈ incident_details (relabel <$> filter (qualifies zc) df) ->
  (exists r, r ∈ df /\ qualifies zc r /\ zip_code r = Some z /\ type_of_incident r = t) /\
  v = count_sum (filter (fun r => qualifies zc r /\ zip_code r = Some z
                                  /\ type_of_incident r = t) df).
Proof.
  intros Hin. unfold incident_details in Hin. rewrite <- list_fmap_compose in Hin.
  set (key := fun r => (zip_of (relabel r), type_of_incident r)) in *.
  assert (Hkey : (z, t) ∈ ((fun r => (key r, count r)) <$> filter (qualifies zc) df).*1).
  { apply groupby_sum_keys. apply list_elem_of_fmap. by exists ((z, t), v). }
  apply list_elem_of_fmap in Hkey as ([k0 v0] & Hk0 & Hkey). simpl in Hk0. subst k0.
  apply list_elem_of_fmap in Hkey as (r0 & [= Hz Ht Hv] & Hr0).
  apply list_elem_of_filter in Hr0 as [Hq0 Hr0].
  split.
  { exists r0. split; [done|]. split; [done|]. split; [|done].
    by apply (qualifies_zip_of zc r0 z). }
  rewrite <- (tally_single _ (z, t) v (groupby_sum_NoDup _) Hin).
  rewrite groupby_sum_tally.
  rewrite (tally_count_sum (fun k => bool_decide (k = (z, t))) key).
  rewrite list_filter_filter. apply count_sum_ext. intros r Hr.
  rewrite bool_decide_eq_true. unfold key. split.
  - intros [[= Hz' Ht'] Hq]. split; [done|]. split; [|done].
    by apply (qualifies_zip_of zc r z).
  - intros (Hq & Hz' & Ht'). split; [|done]. f_equal; [|done].
    by apply (qualifies_zip_of zc r z).
Qed.

Lemma details_key zc df r z :
  r ∈ df -> qualifies zc r -> zip_code r = Some z ->
  (z, type_of_incident r) ∈ (incident_details (relabel <$> filter (qualifies zc) df)).*1.
Proof.
  intros Hr Hq Hz. unfold incident_details. apply groupby_sum_keys.
  apply list_elem_of_fmap.
  exists ((z, type_of_incident r), count r). split; [done|].
  apply list_elem_of_fmap. exists (relabel r). split.
  - f_equal. f_equal. symmetry. by apply (qualifies_zip_of zc r z).
  - apply list_elem_of_fmap_2. by apply list_elem_of_filter.
Qed.

Lemma grouped_key zc df r z :
  r ∈ df -> qualifies zc r -> zip_code r = Some z ->
  (z, property_crime) ∈ (grouped (relabel <$> filter (qualifies zc) df)).*1.
Proof.
  intros Hr Hq Hz. unfold grouped. apply groupby_sum_keys.
  apply list_elem_of_fmap.
  exists ((z, property_crime), count r). split; [done|].
  apply list_elem_of_fmap. exists (relabel r). split.
  - f_equal. f_equal. symmetry. by apply (qualifies_zip_of zc r z).
  - apply list_elem_of_fmap_2. by apply list_elem_of_filter.
Qed.

Lemma prepare_map_data_unfold zc df :
  prepare_map_data df zc =
    let L := relabel <$> filter (qualifies zc) df in
    map_rows (annotate zc (incident_counts (incident_details L))) (grouped L).
Proof. unfold prepare_map_data. by rewrite clean_rows. Qed.

Lemma NoDup_fst_const (l : list (Z * string)) (c : string) :
  (forall k, k ∈ l -> k.2 = c) -> NoDup l -> NoDup l.*1.
Proof.
  intros Hc. induction 1 as [|[z t] l Hnotin Hnd IH]; csimpl; [constructor|].
  constructor.
  - intros Hin. apply Hnotin. apply list_elem_of_fmap in Hin as ([z' t'] & Hz & Hin).
    simpl in Hz. subst z'.
    assert (Ht : t = c) by (apply (Hc (z, t)), elem_of_cons; by left).
    assert (Ht' : t' = c) by (apply (Hc (z, t')), elem_of_cons; by right).
    by rewrite Ht, <- Ht'.
  - apply IH. intros k Hk. apply Hc. apply elem_of_cons. by right.
Qed.

(** The zip codes of the returned rows are those of the grouped frame, in
    its order, and every key of that frame has the single category. *)
Lemma prepare_rows_zips zc df (rows : list map_row) :
  prepare_map_data df zc = Ok rows ->
  m_zip_code <$> rows = (grouped (relabel <$> filter (qualifies zc) df)).*1.*1.
Proof.
  rewrite prepare_map_data_unfold. cbv zeta. intros Hok.
  rewrite <- list_fmap_compose.
  apply (map_rows_proj _ _ _ _ _ (fun g row H => proj1 (annotate_ok _ _ g row H)) Hok).
Qed.

Lemma grouped_keys_category zc df (k : Z * string) :
  k ∈ (grouped (relabel <$> filter (qualifies zc) df)).*1 -> k.2 = property_crime.
Proof.
  destruct k as [z cat]. intros Hk.
  apply list_elem_of_fmap in Hk as ([k0 v] & Hk0 & Hk).
  simpl in Hk0. subst k0. by apply grouped_entry in Hk as (-> & _).
Qed.

Lemma prepare_zip_iff zc df (rows : list map_row) z :
  prepare_map_data df zc = Ok rows ->
  z ∈ m_zip_code <$> rows <->
  exists r, r ∈ df /\ qualifies zc r /\ zip_code r = Some z.
Proof.
  intros Hok. rewrite (prepare_rows_zips zc df rows Hok). split.
  - intros Hz. apply list_elem_of_fmap in Hz as ([z' cat] & Hz' & Hk).
    simpl in Hz'. subst z'.
    apply list_elem_of_fmap in Hk as ([k0 v] & Hk0 & Hk). simpl in Hk0. subst k0.
    by apply grouped_entry in Hk as (_ & Hex & _).
  - intros (r & Hr & Hq & Hz). apply list_elem_of_fmap.
    exists (z, property_crime). split; [done|]. by apply (grouped_key zc df r).
Qed.

(** The frame that [prepare_map_data] returns has one row for each zip code
    that some row of 2024 with a property keyword and a cached zip code
    carries, no other row, and "Property Crime" in every row. *)
Theorem one_record_per_zip zc df (rows : list map_row) :
  prepare_map_data df zc = Ok rows ->
  NoDup (m_zip_code <$> rows) /\
  (forall z, z ∈ m_zip_code <$> rows <->
             exists r, r ∈ df /\ qualifies zc r /\ zip_code r = Some z) /\
  Forall (fun row => m_type_of_incident row = "Property Crime"%string) rows.
Proof.
  intros Hok. pose proof (prepare_rows_zips zc df rows Hok) as Hzips.
  pose proof (fun z => prepare_zip_iff zc df rows z Hok) as Hiff.
  rewrite prepare_map_data_unfold in Hok. cbv zeta in Hok.
  set (L := relabel <$> filter (qualifies zc) df) in *.
  pose proof (grouped_keys_category zc df) as Hcat. fold L in Hcat.
  split; [|split].
  - rewrite Hzips. apply (NoDup_fst_const _ property_crime Hcat).
    apply groupby_sum_NoDup.
  - exact Hiff.
  - apply Forall_forall. intros row Hrow.
    destruct (map_rows_elem _ _ _ Hok row Hrow) as ([[z cat] v] & Hg & Hann).
    apply annotate_ok in Hann as (_ & Hc & _). simpl in Hc. rewrite Hc.
    by apply grouped_entry in Hg as (-> & _).
Qed.

Lemma one_record_per_zip_witness :
  NoDup (m_zip_code <$>
    [ {| m_zip_code := 75201;
         m_type_of_incident := "Property Crime";
         m_count := 5;
         m_incident_counts := Some [("BURGLARY"%string, 3); ("SHOPLIFTING"%string, 2)];
         m_lat := PyFloat 32.78;
         m_lon := PyFloat (-96.80) |} ]).
Proof.
  apply (one_record_per_zip scenario_cache scenario_rows).
  vm_compute. reflexivity.
Defined.

(** The count of a returned row is the sum of the counts of the input rows
    of its zip code that are of 2024, match a property keyword and have a
    cached zip code. *)
Theorem record_total_is_sum zc df (rows : list map_row) :
  prepare_map_data df zc = Ok rows ->
  Forall (fun row =>
            m_count row = count_sum (filter (fun r => qualifies zc r /\
                                       zip_code r = Some (m_zip_code row)) df)) rows.
Proof.
  rewrite prepare_map_data_unfold. cbv zeta. intros Hok.
  apply Forall_forall. intros row Hrow.
  destruct (map_rows_elem _ _ _ Hok row Hrow) as ([[z cat] v] & Hg & Hann).
  apply annotate_ok in Hann as (Hz & _ & Hv & _). simpl in Hz, Hv.
  rewrite Hz, Hv. by apply grouped_entry in Hg as (_ & _ & ->).
Qed.

Lemma record_total_is_sum_witness :
  Forall (fun row =>
            m_count row = count_sum (filter (fun r => qualifies scenario_cache r /\
                                       zip_code r = Some (m_zip_code row)) scenario_rows))
    [ {| m_zip_code := 75201;
         m_type_of_incident := "Property Crime";
         m_count := 5;
         m_incident_counts := Some [("BURGLARY"%string, 3); ("SHOPLIFTING"%string, 2)];
         m_lat := PyFloat 32.78;
         m_lon := PyFloat (-96.80) |} ].
Proof.
  apply (record_total_is_sum scenario_cache scenario_rows).
  vm_compute. reflexivity.
Defined.

Lemma breakdown_items (z : Z) (details : list ((Z * string) * Z)) t v :
  NoDup details.*1 ->
  ((t, v) ∈ breakdown_of z details <-> ((z, t), v) ∈ details) /\
  NoDup (breakdown_of z details).*1.
Proof.
  intros Hnd. unfold breakdown_of.
  rewrite py_dict_NoDup by by apply sub_frame_types_NoDup.
  split; [|by apply sub_frame_types_NoDup].
  rewrite list_elem_of_fmap. split.
  - intros ([[z' t'] v'] & [= -> ->] & Hin).
    apply list_elem_of_filter in Hin as [Hz Hin]. simpl in Hz. by subst z'.
  - intros Hin. exists ((z, t), v). split; [done|]. by apply list_elem_of_filter.
Qed.

(** The breakdown attached to a returned row lists each original incident
    type of the qualifying rows of its zip code once, with the sum of their
    counts. *)
Theorem breakdown_by_type zc df (rows : list map_row) :
  prepare_map_data df zc = Ok rows ->
  Forall (fun row => exists d,
            m_incident_counts row = Some d /\
            NoDup d.*1 /\
            (forall t, t ∈ d.*1 <->
               exists r, r ∈ df /\ qualifies zc r /\
                         zip_code r = Some (m_zip_code row) /\ type_of_incident r = t) /\
            (forall t v, (t, v) ∈ d ->
               v = count_sum (filter (fun r => qualifies zc r /\
                                zip_code r = Some (m_zip_code row) /\
                                type_of_incident r = t) df))) rows.
Proof.
  rewrite prepare_map_data_unfold. cbv zeta. intros Hok.
  set (L := relabel <$> filter (qualifies zc) df) in *.
  apply Forall_forall. intros row Hrow.
  destruct (map_rows_elem _ _ _ Hok row Hrow) as ([[z cat] v] & Hg & Hann).
  apply annotate_ok in Hann as (Hz & _ & _ & Hc & _). simpl in Hz, Hc.
  rewrite Hz. apply grouped_entry in Hg as (_ & (r0 & Hr0 & Hq0 & Hz0) & _).
  assert (Hnd : NoDup (incident_details L).*1) by apply groupby_sum_NoDup.
  exists (breakdown_of z (incident_details L)). split; [|split; [|split]].
  - rewrite Hc. apply incident_counts_lookup.
    apply list_elem_of_fmap. exists (z, type_of_incident r0). split; [done|].
    by apply (details_key zc df r0 z).
  - by apply (breakdown_items z _ ""%string 0).
  - intros t. split.
    + intros Ht. apply list_elem_of_fmap in Ht as ([t' v'] & Ht' & Hin).
      simpl in Ht'. subst t'.
      apply (breakdown_items z _ t v' Hnd) in Hin.
      by apply details_entry in Hin as [Hex _].
    + intros (r & Hr & Hq & Hzr & Ht). subst t.
      pose proof (details_key zc df r z Hr Hq Hzr) as Hk. fold L in Hk.
      apply list_elem_of_fmap in Hk as ([k v'] & Hk' & Hin). simpl in Hk'. subst k.
      apply list_elem_of_fmap. exists (type_of_incident r, v'). split; [done|].
      by apply (breakdown_items z _ _ v' Hnd).
  - intros t v' Hin. apply (breakdown_items z _ t v' Hnd) in Hin.
    by apply details_entry in Hin as [_ ->].
Qed.

Lemma breakdown_by_type_witness :
  Forall (fun row => exists d,
            m_incident_counts row = Some d /\
            NoDup d.*1 /\
            (forall t, t ∈ d.*1 <->
               exists r, r ∈ scenario_rows /\ qualifies scenario_cache r /\
                         zip_code r = Some (m_zip_code row) /\ type_of_incident r = t) /\
            (forall t v, (t, v) ∈ d ->
               v = count_sum (filter (fun r => qualifies scenario_cache r /\
                                zip_code r = Some (m_zip_code row) /\
                                type_of_incident r = t) scenario_rows)))
    [ {| m_zip_code := 75201;
         m_type_of_incident := "Property Crime";
         m_count := 5;
         m_incident_counts := Some [("BURGLARY"%string, 3); ("SHOPLIFTING"%string, 2)];
         m_lat := PyFloat 32.78;
         m_lon := PyFloat (-96.80) |} ].
Proof.
  apply (breakdown_by_type scenario_cache scenario_rows).
  vm_compute. reflexivity.
Defined.

Lemma map_rows_ok_iff {A B} (f : A -> result B) (l : list A) :
  (exists ys, map_rows f l = Ok ys) <-> (forall x, x ∈ l -> exists y, f x = Ok y).
Proof.
  induction l as [|x l IH]; simpl.
  - split; [|by eexists]. intros _ x Hx. by apply elem_of_nil in Hx.
  - split.
    + intros [ys Hok] x' Hx'.
      destruct (f x) as [y|] eqn:Hfx; simpl in Hok; [|done].
      destruct (map_rows f l) as [ys'|] eqn:Hrest; simpl in Hok; [|done].
      apply elem_of_cons in Hx' as [->|Hx']; [by eexists|].
      apply IH; [by eexists|done].
    + intros Hall. destruct (Hall x) as [y Hy]; [apply elem_of_cons; by left|].
      rewrite Hy. simpl.
      destruct (proj2 IH) as [ys Hys].
      { intros x' Hx'. apply Hall, elem_of_cons. by right. }
      rewrite Hys. simpl. by eexists.
Qed.

Lemma annotate_ok_iff zc counts (g : (Z * string) * Z) :
  (exists row, annotate zc counts g = Ok row) <->
  (exists v, zc !! g.1.1 = Some v /\ indexable v).
Proof.
  unfold annotate, indexable. destruct (zc !! g.1.1) as [v|].
  - split.
    + intros [row Hrow]. exists v. split; [done|].
      destruct (py_index v 0) as [a|]; simpl in Hrow; [|done].
      destruct (py_index v 1) as [b|]; simpl in Hrow; [|done]. by exists a, b.
    + intros (v' & [= <-] & a & b & Ha & Hb). rewrite Ha, Hb. simpl. by eexists.
  - split; [by intros [row ?]|by intros (v & ? & _)].
Qed.

Lemma prepare_ok_iff zc df :
  (exists rows, prepare_map_data df zc = Ok rows) <->
  (forall r z v, r ∈ df -> qualifies zc r -> zip_code r = Some z ->
                 zc !! z = Some v -> indexable v).
Proof.
  rewrite prepare_map_data_unfold. cbv zeta.
  set (L := relabel <$> filter (qualifies zc) df).
  rewrite map_rows_ok_iff. split.
  - intros Hall r z v Hr Hq Hz Hv.
    pose proof (grouped_key zc df r z Hr Hq Hz) as Hk. fold L in Hk.
    apply list_elem_of_fmap in Hk as ([k c] & Hk' & Hin). simpl in Hk'. subst k.
    destruct (Hall _ Hin) as [row Hrow].
    assert (Hex : exists row, annotate zc (incident_counts (incident_details L))
                                ((z, property_crime), c) = Ok row) by by eexists.
    apply annotate_ok_iff in Hex as (v' & Hv' & Hidx). simpl in Hv'.
    rewrite Hv in Hv'. by injection Hv' as <-.
  - intros Hall [[z cat] c] Hin. apply annotate_ok_iff. simpl.
    apply grouped_entry in Hin as (_ & (r & Hr & Hq & Hz) & _).
    destruct Hq as (Hy & Hm & (z' & Hz' & [v Hv])).
    rewrite Hz in Hz'. injection Hz' as <-.
    exists v. split; [done|]. apply (Hall r z v Hr); [|done..].
    split; [done|]. split; [done|]. exists z. split; [done|by eexists].
Qed.

(** [prepare_map_data] returns a frame exactly when the cache value of
    every qualifying row can be indexed at 0 and 1; otherwise the exception
    of the failing lookup leaves the function. *)
Theorem prepare_map_data_returns_iff zc df :
  (exists rows, prepare_map_data df zc = Ok rows) <->
  (forall r z v, r ∈ df -> qualifies zc r -> zip_code r = Some z ->
                 zc !! z = Some v -> indexable v).
Proof. apply prepare_ok_iff. Qed.

(** The frame is empty exactly when no row qualifies; in that case the
    function returns, whatever the cache holds. *)
Theorem prepare_map_data_empty_iff zc df :
  prepare_map_data df zc = Ok [] <-> (forall r, r ∈ df -> ~ qualifies zc r).
Proof.
  split.
  - intros Hok r Hr Hq.
    destruct Hq as (Hy & Hm & (z & Hz & Hs)).
    assert (Hin : z ∈ m_zip_code <$> ([] : list map_row)).
    { apply (prepare_zip_iff zc df [] z Hok). exists r. split; [done|]. split; [|done].
      split; [done|]. split; [done|]. by exists z. }
    by apply elem_of_nil in Hin.
  - intros Hnone. rewrite prepare_map_data_unfold. cbv zeta.
    replace (filter (qualifies zc) df) with ([] : list incident); [done|].
    symmetry. induction df as [|r df IH]; [done|].
    rewrite filter_cons, decide_False.
    + apply IH. intros x Hx. apply Hnone, elem_of_cons. by right.
    + apply Hnone, elem_of_cons. by left.
Qed.

(** The coordinates of a returned row are the first two elements of the
    cache value of its zip code. *)
Theorem coordinates_joined_from_cache zc df (rows : list map_row) :
  prepare_map_data df zc = Ok rows ->
  Forall (fun row => exists v,
            zc !! m_zip_code row = Some v /\
            py_index v 0 = Ok (m_lat row) /\
            py_index v 1 = Ok (m_lon row)) rows.
Proof.
  unfold prepare_map_data. intros Hok. apply Forall_forall. intros row Hrow.
  destruct (map_rows_elem _ _ _ Hok row Hrow) as (g & _ & Hann).
  unfold annotate in Hann. destruct (zc !! g.1.1) as [v|] eqn:Hv; [|done].
  destruct (py_index v 0) as [lat|] eqn:Hlat; simpl in Hann; [|done].
  destruct (py_index v 1) as [lon|] eqn:Hlon; simpl in Hann; [|done].
  injection Hann as <-. simpl. by exists v.
Qed.

Lemma coordinates_joined_from_cache_witness :
  Forall (fun row => exists v,
            scenario_cache !! m_zip_code row = Some v /\
            py_index v 0 = Ok (m_lat row) /\
            py_index v 1 = Ok (m_lon row))
    [ {| m_zip_code := 75201;
         m_type_of_incident := "Property Crime";
         m_count := 5;
         m_incident_counts := Some [("BURGLARY"%string, 3); ("SHOPLIFTING"%string, 2)];
         m_lat := PyFloat 32.78;
         m_lon := PyFloat (-96.80) |} ].
Proof.
  apply (coordinates_joined_from_cache scenario_cache scenario_rows).
  vm_compute. reflexivity.
Defined.

End PrepareFacts.

(** ** The order of a grouped frame *)

Section OrderFacts.

Lemma ascii_compare_lt_trans (a b c : ascii) :
  Ascii.compare a b = Lt -> Ascii.compare b c = Lt -> Ascii.compare a c = Lt.
Proof.
  unfold Ascii.compare. rewrite !N.compare_lt_iff. lia.
Qed.

Lemma string_lt_trans (s t u : string) :
  string_lt s t -> string_lt t u -> string_lt s u.
Proof.
  unfold string_lt. revert t u.
  induction s as [|a s IH]; intros [|b t] [|c u]; simpl; try done.
  destruct (Ascii.compare a b) eqn:Hab; [|clear IH|done].
  - apply Ascii.compare_eq_iff in Hab as ->.
    destruct (Ascii.compare b c); [apply IH|done|done].
  - intros _. destruct (Ascii.compare b c) eqn:Hbc; [| |done].
    + apply Ascii.compare_eq_iff in Hbc as <-. by rewrite Hab.
    + intros _. by rewrite (ascii_compare_lt_trans a b c).
Qed.


#[local] Instance key_lt_trans : Transitive key_lt.
Proof.
  intros [z1 s1] [z2 s2] [z3 s3]. unfold key_lt. simpl.
  intros [H12|[-> H12]] [H23|[-> H23]]; [left; lia|by left|by left|].
  right. split; [done|]. by apply (string_lt_trans s1 s2 s3).
Qed.

Lemma key_leb_true (a b : Z * string) : key_leb a b = true -> a <> b -> key_lt a b.
Proof.
  destruct a as [z1 s1], b as [z2 s2]. unfold key_leb, key_lt. simpl.
  rewrite orb_true_iff, andb_true_iff, Z.ltb_lt, Z.eqb_eq. intros [H|[-> Hs]] Hne.
  - by left.
  - right. split; [done|]. unfold string_lt, String.leb in *.
    destruct (String.compare s1 s2) eqn:Hc; [|done|done].
    apply String.compare_eq_iff in Hc. congruence.
Qed.

Lemma key_leb_false (a b : Z * string) : key_leb a b = false -> key_lt b a.
Proof.
  destruct a as [z1 s1], b as [z2 s2]. unfold key_leb, key_lt. simpl.
  rewrite orb_false_iff, andb_false_iff, Z.ltb_ge, Z.eqb_neq. intros [Hge [Hne|Hs]].
  - left. lia.
  - destruct (decide (z1 = z2)) as [->|Hne]; [|left; lia].
    right. split; [done|]. unfold string_lt, String.leb in *.
    rewrite String.compare_antisym. by destruct (String.compare s1 s2).
Qed.

Lemma insert_sorted_head k c (acc : list ((Z * string) * Z)) k0 :
  HdRel key_lt k0 acc.*1 -> key_lt k0 k ->
  HdRel key_lt k0 (insert_sorted k c acc).*1.
Proof.
  destruct acc as [|[k' v] acc]; csimpl; intros Hhd Hk; [by constructor|].
  destruct (key_leb k k'); csimpl; [by constructor|].
  constructor. by apply HdRel_inv in Hhd.
Qed.

Lemma insert_sorted_Sorted k c (acc : list ((Z * string) * Z)) :
  Sorted key_lt acc.*1 -> k ∉ acc.*1 -> Sorted key_lt (insert_sorted k c acc).*1.
Proof.
  induction acc as [|[k' v] acc IH]; csimpl; intros Hs Hk.
  - by repeat constructor.
  - apply not_elem_of_cons in Hk as [Hne Hk].
    apply Sorted_inv in Hs as [Hs Hhd].
    destruct (key_leb k k') eqn:Hle; csimpl.
    + constructor; [by constructor|]. constructor. by apply key_leb_true.
    + constructor; [by apply IH|].
      apply insert_sorted_head; [done|]. by apply key_leb_false.
Qed.

(** A grouped frame is in strictly ascending key order. *)
Lemma groupby_sum_sorted (l : list ((Z * string) * Z)) :
  StronglySorted key_lt (groupby_sum l).*1.
Proof.
  apply Sorted_StronglySorted; [apply key_lt_trans|].
  unfold groupby_sum.
  assert (H : forall acc, Sorted key_lt acc.*1 -> Sorted key_lt (foldl group_add acc l).*1).
  { induction l as [|[k c] l IH]; intros acc Hs; [done|].
    cbn [foldl]. apply IH. unfold group_add. cbn [fst snd].
    destruct (decide (k ∈ acc.*1)).
    - by rewrite bump_keys.
    - by apply insert_sorted_Sorted. }
  apply H. constructor.
Qed.

Lemma StronglySorted_fmap {A B} (R : A -> A -> Prop) (R' : B -> B -> Prop)
    (f : A -> B) (l : list A) :
  (forall x y, x ∈ l -> y ∈ l -> R x y -> R' (f x) (f y)) ->
  StronglySorted R l -> StronglySorted R' (f <$> l).
Proof.
  intros Hf. induction 1 as [|x l Hs IH Hall]; csimpl; constructor.
  - apply IH. intros a b Ha Hb. apply Hf; apply elem_of_cons; by right.
  - apply Forall_fmap. apply Forall_forall. intros y Hy. simpl.
    apply Hf; [apply elem_of_cons; by left|apply elem_of_cons; by right|].
    rewrite Forall_forall in Hall. by apply Hall.
Qed.

Lemma StronglySorted_filter {A} (R : A -> A -> Prop) (P : A -> Prop)
    `{!forall x, Decision (P x)} (l : list A) :
  StronglySorted R l -> StronglySorted R (filter P l).
Proof.
  induction 1 as [|x l Hs IH Hall]; [constructor|].
  rewrite filter_cons. destruct (decide (P x)); [|done].
  constructor; [done|]. apply Forall_forall. intros y Hy.
  apply list_elem_of_filter in Hy as [_ Hy]. rewrite Forall_forall in Hall. by apply Hall.
Qed.

Lemma StronglySorted_fmap_inv {A B} (R : B -> B -> Prop) (f : A -> B) (l : list A) :
  StronglySorted R (f <$> l) -> StronglySorted (fun x y => R (f x) (f y)) l.
Proof.
  induction l as [|x l IH]; csimpl; intros Hs; [constructor|].
  apply StronglySorted_inv in Hs as [Hs Hall]. constructor; [by apply IH|].
  apply Forall_forall. intros y Hy. rewrite Forall_forall in Hall.
  apply Hall. by apply list_elem_of_fmap_2.
Qed.



(** The breakdown of every returned row lists the incident types in
    strictly ascending order of their text. *)
Theorem breakdown_in_type_order (zc : gmap Z pyobj) (df : list incident)
    (rows : list map_row) :
  prepare_map_data df zc = Ok rows ->
  Forall (fun row => exists d, m_incident_counts row = Some d /\
                               StronglySorted string_lt d.*1) rows.
Proof.
  rewrite prepare_map_data_unfold. cbv zeta. intros Hok.
  set (L := relabel <$> filter (qualifies zc) df) in *.
  apply Forall_forall. intros row Hrow.
  destruct (map_rows_elem _ _ _ Hok row Hrow) as ([[z cat] v] & Hg & Hann).
  apply annotate_ok in Hann as (Hz & _ & _ & Hc & _). simpl in Hz, Hc.
  apply grouped_entry in Hg as (_ & (r0 & Hr0 & Hq0 & Hz0) & _).
  assert (Hnd : NoDup (incident_details L).*1) by apply groupby_sum_NoDup.
  exists (breakdown_of z (incident_details L)). split.
  - rewrite Hc. apply incident_counts_lookup.
    apply list_elem_of_fmap. exists (z, type_of_incident r0). split; [done|].
    by apply (details_key zc df r0 z).
  - unfold breakdown_of. rewrite py_dict_NoDup by by apply sub_frame_types_NoDup.
    rewrite <- list_fmap_compose.
    apply (StronglySorted_fmap (fun x y => key_lt x.1 y.1)).
    + intros [[z1 t1] v1] [[z2 t2] v2] H1 H2 Hlt. simpl.
      apply list_elem_of_filter in H1 as [H1 _].
      apply list_elem_of_filter in H2 as [H2 _]. simpl in H1, H2. subst z1 z2.
      destruct Hlt as [Hlt|[_ Hs]]; simpl in *; [lia|done].
    + apply StronglySorted_filter. apply StronglySorted_fmap_inv.
      apply groupby_sum_sorted.
Qed.

Lemma breakdown_in_type_order_witness :
  Forall (fun row => exists d, m_incident_counts row = Some d /\
                               StronglySorted string_lt d.*1)
    [ {| m_zip_code := 75201;
         m_type_of_incident := "Property Crime";
         m_count := 5;
         m_incident_counts := Some [("BURGLARY"%string, 3); ("SHOPLIFTING"%string, 2)];
         m_lat := PyFloat 32.78;
         m_lon := PyFloat (-96.80) |} ].
Proof.
  apply (breakdown_in_type_order scenario_cache scenario_rows).
  vm_compute. reflexivity.
Defined.

End OrderFacts.

(** ** Loading a cache file *)

Section LoadFacts.


Lemma int_keys_lookup (items : list (string * pyobj)) (acc m : gmap Z pyobj) (z : Z) :
  int_keys items acc = Ok m ->
  m !! z = match last_for z items with Some v => Some v | None => acc !! z end.
Proof.
  revert acc. induction items as [|[k v] items IH]; intros acc; simpl.
  - by intros [= <-].
  - destruct (py_int k) as [z'|] eqn:Hk; simpl; [|done].
    intros Hm. rewrite (IH _ Hm).
    destruct (last_for z items); [done|].
    destruct (Z.eqb_spec z' z) as [->|Hne].
    + by rewrite lookup_insert_eq.
    + by rewrite lookup_insert_ne.
Qed.


(** In a loaded cache the value of an integer is that of the last item of
    the file whose key reads as this integer: keys such as "75201",
    " 75201" and "075201" fall together, and a later one wins. *)
Theorem load_last_key_wins (items : list (string * pyobj)) (m : gmap Z pyobj) :
  load_coordinates_cache (Json (PyDict items)) = Some m ->
  forall z, m !! z = last_for z items.
Proof.
  unfold load_coordinates_cache. simpl.
  destruct (int_keys items ∅) as [m'|] eqn:Hm; [|done]. intros [= <-] z.
  rewrite (int_keys_lookup _ _ _ z Hm), lookup_empty. by destruct (last_for z items).
Qed.

Lemma load_last_key_wins_witness :
  ({[ 75201 := PyInt 3 ]} : gmap Z pyobj) !! 75201
  = last_for 75201 [("75201"%string, PyInt 1); (" 75201"%string, PyInt 2);
                    ("075201"%string, PyInt 3)].
Proof.
  apply (load_last_key_wins
           [("75201"%string, PyInt 1); (" 75201"%string, PyInt 2);
            ("075201"%string, PyInt 3)]).
  vm_compute. reflexivity.
Defined.

Fixpoint to_json_idempotent (v : pyobj) : to_json (to_json v) = to_json v.
Proof.
  destruct v as [| | | | |items|items|items]; simpl; try reflexivity.
  - f_equal. induction items as [|x items IH]; simpl; [done|].
    f_equal; [apply to_json_idempotent|apply IH].
  - f_equal. induction items as [|x items IH]; simpl; [done|].
    f_equal; [apply to_json_idempotent|apply IH].
  - f_equal. induction items as [|[k x] items IH]; simpl; [done|].
    f_equal; [|apply IH]. f_equal. apply to_json_idempotent.
Qed.

(** Saving and loading is stable after the first time: the cache that was
    loaded from a saved file is saved and loaded back unchanged. *)
Theorem save_load_stable (coordinates : gmap Z pyobj) :
  exists loaded,
    load_coordinates_cache (Json (dump coordinates)) = Some loaded /\
    load_coordinates_cache (Json (dump loaded)) = Some loaded /\
    (forall k, loaded !! k = to_json <$> coordinates !! k).
Proof.
  exists (to_json <$> coordinates). split; [apply load_dump|]. split.
  - rewrite load_dump. f_equal. rewrite <- map_fmap_compose.
    apply map_fmap_ext. intros k v _. apply to_json_idempotent.
  - intros k. apply lookup_fmap.
Qed.

End LoadFacts.

(** ** Runs of [main] *)

Section RunFacts.

Implicit Types (env : environment) (w : world) (z : Z) (df : list incident).

Lemma string_length_app (s t : string) :
  String.length (s ++ t) = (String.length s + String.length t)%nat.
Proof.
  induction s as [|a s IH]; [done|].
  change (String.length (String a (s ++ t)) = S (String.length s + String.length t)).
  simpl. by rewrite IH.
Qed.

Lemma string_app_inv_tail (s1 s2 t : string) :
  (s1 ++ t = s2 ++ t)%string -> s1 = s2.
Proof.
  revert s2. induction s1 as [|a s1 IH]; intros [|b s2] Heq.
  - done.
  - change (t = String b (s2 ++ t))%string in Heq.
    apply (f_equal String.length) in Heq. simpl in Heq.
    rewrite string_length_app in Heq. lia.
  - change (String a (s1 ++ t) = t)%string in Heq.
    apply (f_equal String.length) in Heq. simpl in Heq.
    rewrite string_length_app in Heq. lia.
  - change (String a (s1 ++ t) = String b (s2 ++ t))%string in Heq.
    injection Heq as -> Heq. f_equal. by apply IH.
Qed.

Lemma py_str_int_inj (z1 z2 : Z) : py_str_int z1 = py_str_int z2 -> z1 = z2.
Proof.
  intros Heq. apply (f_equal py_int) in Heq. rewrite !py_int_str in Heq.
  by injection Heq.
Qed.

Lemma query_of_inj (z1 z2 : Z) : query_of z1 = query_of z2 -> z1 = z2.
Proof.
  unfold query_of. intros Heq. apply string_app_inv_tail in Heq.
  by apply py_str_int_inj.
Qed.

(** What a run adds to the trace. *)
Lemma main_trace env w :
  exists new,
    trace (main env w).2 = trace w ++ new /\
    (new = [] \/ new = [Prompt] \/
     exists df,
       police_data env = Some df /\
       load_coordinates_cache (cache_file w) = None /\
       (new = Prompt :: (unique (omap zip_code df) ≫= call_events) \/
        new = Prompt :: (unique (omap zip_code df) ≫= call_events)
                ++ [WriteCache (dump (fill_result env df))])).
Proof.
  rewrite main_world.
  destruct (police_data env) as [df|]; [|exists []; rewrite app_nil_r; auto].
  destruct (load_coordinates_cache (cache_file w)) as [zc|] eqn:Hload;
    [exists []; rewrite app_nil_r; auto|].
  destruct (String.eqb (str_lower (answer env)) "y") eqn:Hy.
  - rewrite (fill_cache_run env df w Hy). cbv zeta.
    destruct (decide (fill_result env df = ∅)); [|destruct (disk_writable env)];
      cbn [snd trace]; eexists; (split; [reflexivity|]); right; right; exists df;
      (split; [done|]); (split; [done|]); auto.
  - rewrite (fill_cache_cancelled env df w Hy). cbn [snd trace].
    exists [Prompt]. auto.
Qed.

Lemma calls_polite (zs : list Z) : polite (zs ≫= call_events).
Proof.
  induction zs as [|z zs IH]; intros i q Hi; [done|].
  change ((z :: zs) ≫= call_events)
    with (Sleep default_delay :: HttpGet (query_of z) :: (zs ≫= call_events)) in *.
  destruct i as [|[|i]]; [done|by exists 0%nat|].
  simpl in Hi. destruct (IH i q Hi) as (j & -> & Hj).
  exists (S (S j)). done.
Qed.

Lemma polite_prompt (t : list event) : polite t -> polite (Prompt :: t).
Proof.
  intros Ht [|i] q Hi; [done|]. simpl in Hi.
  destruct (Ht i q Hi) as (j & -> & Hj). by exists (S j).
Qed.

Lemma polite_write (t : list event) doc : polite t -> polite (t ++ [WriteCache doc]).
Proof.
  intros Ht i q Hi. apply lookup_app_Some in Hi as [Hi|[Hlen Hi]].
  - destruct (Ht i q Hi) as (j & -> & Hj). exists j. split; [done|].
    by apply lookup_app_l_Some.
  - destruct (i - length t)%nat as [|n]; [done|]. by destruct n.
Qed.

(** Every request that a run sends comes directly after a sleep of 0.1
    seconds: the pause is taken before each call, also the first one. *)
Theorem every_request_after_sleep env w :
  exists new, trace (main env w).2 = trace w ++ new /\ polite new.
Proof.
  destruct (main_trace env w) as (new & Htrace & Hnew).
  exists new. split; [done|].
  destruct Hnew as [->|[->|(df & _ & _ & [->| ->])]].
  - intros i q Hi. done.
  - intros [|[|i]] q Hi; done.
  - apply polite_prompt, calls_polite.
  - apply (polite_write (Prompt :: _)). apply polite_prompt, calls_polite.
Qed.

(** No query is sent twice in a run: each distinct zip code of the data is
    looked up at most once. *)
Theorem each_zip_queried_once env w :
  exists sent, queries (trace (main env w).2) = queries (trace w) ++ sent /\ NoDup sent.
Proof.
  destruct (main_trace env w) as (new & Htrace & Hnew).
  exists (queries new). split; [by rewrite Htrace, queries_app|].
  assert (Hcalls : forall df, NoDup (queries (Prompt :: (unique (omap zip_code df) ≫= call_events)))).
  { intros df. rewrite queries_prompt, calls_queries.
    apply NoDup_fmap_2; [|apply NoDup_unique]. intros z1 z2. apply query_of_inj. }
  destruct Hnew as [->|[->|(df & _ & _ & [->| ->])]].
  - constructor.
  - constructor.
  - apply Hcalls.
  - rewrite app_comm_cons, queries_app. simpl. rewrite app_nil_r. apply Hcalls.
Qed.

End RunFacts.

(** ** Runs of [main], continued *)

Section MainFacts.

Implicit Types (env : environment) (w : world) (z : Z) (df : list incident).
Implicit Types (zc : gmap Z pyobj).

Lemma main_cached_run env df zc w :
  police_data env = Some df ->
  load_coordinates_cache (cache_file w) = Some zc ->
  main env w = (finish df zc, w).
Proof.
  intros Hdf Hload. unfold main, finish. rewrite Hdf. unfold bind at 1. rewrite Hload.
  unfold bind, ret, lift. destruct (prepare_map_data df zc) as [rows|]; [|done].
  by destruct (Nat.eqb (length rows) 0).
Qed.

Lemma main_filled_run env df w :
  police_data env = Some df ->
  load_coordinates_cache (cache_file w) = None ->
  main env w =
    match fill_cache env df w with
    | (Ok (inr zc), w') => (finish df zc, w')
    | (Ok (inl stop), w') => (Ok stop, w')
    | (Raise e, w') => (Raise e, w')
    end.
Proof.
  intros Hdf Hload. unfold main, finish. rewrite Hdf. unfold bind at 1. rewrite Hload.
  unfold bind. destruct (fill_cache env df w) as [[[stop|zc]|e] w']; [done| |done].
  unfold lift, ret. destruct (prepare_map_data df zc) as [rows|]; [|done].
  by destruct (Nat.eqb (length rows) 0).
Qed.

Lemma map_rows_ext {A B} (f g : A -> result B) (l : list A) :
  (forall x, x ∈ l -> f x = g x) -> map_rows f l = map_rows g l.
Proof.
  induction l as [|x l IH]; intros Hfg; simpl; [done|].
  rewrite (Hfg x) by (apply elem_of_cons; by left).
  rewrite IH; [done|]. intros y Hy. apply Hfg, elem_of_cons. by right.
Qed.

Lemma prepare_cache_ext df zc1 zc2 :
  (forall z, is_Some (zc1 !! z) <-> is_Some (zc2 !! z)) ->
  (forall z v1 v2, zc1 !! z = Some v1 -> zc2 !! z = Some v2 ->
     py_index v1 0 = py_index v2 0 /\ py_index v1 1 = py_index v2 1) ->
  prepare_map_data df zc1 = prepare_map_data df zc2.
Proof.
  intros Hkeys Hvals. unfold prepare_map_data, clean.
  rewrite (list_filter_iff (has_coordinates zc1) (has_coordinates zc2)).
  2:{ intros r. unfold has_coordinates. split; intros (z & Hz & Hs); exists z;
        (split; [done|]); by apply Hkeys. }
  apply map_rows_ext. intros g _. unfold annotate.
  destruct (zc1 !! g.1.1) as [v1|] eqn:H1, (zc2 !! g.1.1) as [v2|] eqn:H2.
  - destruct (Hvals _ _ _ H1 H2) as [-> ->]. done.
  - assert (Hs : is_Some (zc2 !! g.1.1)) by (apply Hkeys; by rewrite H1).
    rewrite H2 in Hs. by destruct Hs.
  - assert (Hs : is_Some (zc1 !! g.1.1)) by (apply Hkeys; by rewrite H2).
    rewrite H1 in Hs. by destruct Hs.
  - done.
Qed.

(** The values of a freshly built cache are coordinate tuples. *)
Lemma fill_result_tuple env df z v :
  fill_result env df !! z = Some v -> exists c, v = coordinate_tuple c.
Proof.
  rewrite fill_result_lookup. destruct (decide _); [|done].
  destruct (resolved env z) as [c|]; [|done]. intros [= <-]. by exists c.
Qed.

Lemma finish_fill_result env df :
  finish df (to_json <$> fill_result env df) = finish df (fill_result env df) /\
  exists o, finish df (fill_result env df) = Ok o.
Proof.
  split.
  - unfold finish. rewrite (prepare_cache_ext df _ (fill_result env df)); [done| |].
    + intros z. rewrite lookup_fmap. by rewrite fmap_is_Some.
    + intros z v1 v2 H1 H2. rewrite lookup_fmap, H2 in H1. injection H1 as <-.
      by destruct (fill_result_tuple env df z v2 H2) as [c ->].
  - unfold finish.
    destruct (proj2 (prepare_ok_iff (fill_result env df) df)) as [rows ->]; [|by eexists].
    intros r z v _ _ _ Hv. destruct (fill_result_tuple env df z v Hv) as [c ->].
    by exists (PyFloat c.1), (PyFloat c.2).
Qed.

(** With a cache on disk a run is offline: it asks nothing, sends nothing
    and writes nothing, and ends with the map of the cached zip codes, with
    "nothing to map", or with the exception of [prepare_map_data]. *)
Theorem main_offline_with_cache env df zc w :
  police_data env = Some df ->
  load_coordinates_cache (cache_file w) = Some zc ->
  main env w = (finish df zc, w).
Proof. apply main_cached_run. Qed.

Lemma main_offline_with_cache_witness :
  main partly_cached (World partly_cached_file [])
  = (finish [Incident 1 (Some 75201) "THEFT" 2024; Incident 1 (Some 75202) "THEFT" 2024]
       {[ 75201 := PyList [PyFloat 32.78; PyFloat (-96.80)] ]},
     World partly_cached_file []).
Proof.
  apply (main_offline_with_cache partly_cached); [reflexivity|].
  vm_compute. reflexivity.
Defined.





(** After a run that built and saved the cache, the next run with the same
    data is offline and ends the same way: the saved file gives the same
    map as the coordinates held in memory. *)
Theorem second_run_same_map env df w :
  police_data env = Some df ->
  load_coordinates_cache (cache_file w) = None ->
  String.eqb (str_lower (answer env)) "y" = true ->
  disk_writable env = true ->
  fill_result env df <> ∅ ->
  main env (main env w).2 = main env w.
Proof.
  intros Hdf Hload Hy Hw Hne.
  rewrite (main_filled_run env df w Hdf Hload), (fill_cache_run env df w Hy).
  cbv zeta. rewrite decide_False by done. rewrite Hw. cbn [snd].
  rewrite (main_cached_run env df (to_json <$> fill_result env df)); [|done|apply load_dump].
  f_equal. apply finish_fill_result.
Qed.

Lemma second_run_same_map_witness :
  main half_resolved (main half_resolved (World Missing [])).2
  = main half_resolved (World Missing []).
Proof.
  apply (second_run_same_map half_resolved
           [Incident 1 (Some 75201) "THEFT" 2024; Incident 1 (Some 75202) "THEFT" 2024]);
    try reflexivity.
  vm_compute. discriminate.
Defined.

(** [prepare_map_data] uses of the cache only its keys and the first two
    elements of each value: two caches that agree on these give the same
    result, be their values tuples or lists. *)
Theorem prepare_uses_keys_and_pairs df zc1 zc2 :
  (forall z, is_Some (zc1 !! z) <-> is_Some (zc2 !! z)) ->
  (forall z v1 v2, zc1 !! z = Some v1 -> zc2 !! z = Some v2 ->
     py_index v1 0 = py_index v2 0 /\ py_index v1 1 = py_index v2 1) ->
  prepare_map_data df zc1 = prepare_map_data df zc2.
Proof. apply prepare_cache_ext. Qed.

Lemma prepare_uses_keys_and_pairs_witness :
  prepare_map_data scenario_rows scenario_cache
  = prepare_map_data scenario_rows (to_json <$> scenario_cache).
Proof.
  apply (prepare_uses_keys_and_pairs scenario_rows scenario_cache
           (to_json <$> scenario_cache)).
  - intros z. rewrite lookup_fmap. by rewrite fmap_is_Some.
  - intros z v1 v2 H1 H2. rewrite lookup_fmap, H1 in H2. injection H2 as <-.
    unfold scenario_cache in H1. apply lookup_singleton_Some in H1 as [_ <-].
    split; reflexivity.
Defined.

(** A well-formed answer of the service: from a JSON list, only the first
    element is read; its "lat" and "lon" are turned into floats and returned,
    after the sleep and one request. *)
Theorem geocode_reads_first_result env z (delay : Q) w status first rest lat lon :
  Qle_bool 0 delay = true ->
  http_get env (query_of z) = Response status (Some (PyList (first :: rest))) ->
  (Z.leb 400 status && Z.ltb status 600)%bool = false ->
  field env (PyList [first]) "lat" = Ok lat ->
  field env (PyList [first]) "lon" = Ok lon ->
  geocode_zip_code env z delay w
  = (Ok (Some (lat, lon)),
     {| cache_file := cache_file w;
        trace := trace w ++ [Sleep delay; HttpGet (query_of z)] |}).
Proof.
  intros Hd Hget Hst Hlat Hlon. rewrite geocode_zip_code_run, Hd.
  unfold resolved. rewrite Hget, Hst. simpl.
  unfold field in *. simpl in *. destruct (py_item first "lat"); simpl in *; [|done].
  rewrite Hlat. destruct (py_item first "lon"); simpl in *; [|done]. by rewrite Hlon.
Qed.

Lemma geocode_reads_first_result_witness :
  geocode_zip_code half_resolved 75201 default_delay (World Missing [])
  = (Ok (Some (32.78%float, (-96.80)%float)),
     {| cache_file := Missing;
        trace := [] ++ [Sleep default_delay; HttpGet (query_of 75201)] |}).
Proof.
  apply (geocode_reads_first_result half_resolved 75201 default_delay (World Missing [])
           200 (PyDict [("lat"%string, PyFloat 32.78); ("lon"%string, PyFloat (-96.80))]) []);
    reflexivity.
Defined.

End MainFacts.

(** ** The markers *)

Section MarkerListFacts.

Implicit Types (md : list map_row) (row : map_row).







Lemma map_rows_lookup {A B} (f : A -> result B) (l : list A) (ys : list B) (i : nat) y :
  map_rows f l = Ok ys -> ys !! i = Some y ->
  exists x, l !! i = Some x /\ f x = Ok y.
Proof.
  revert ys i. induction l as [|x l IH]; simpl; intros ys i Hok Hi.
  - injection Hok as <-. done.
  - destruct (f x) as [y0|] eqn:Hfx; simpl in Hok; [|done].
    destruct (map_rows f l) as [ys0|] eqn:Hrest; simpl in Hok; [|done].
    injection Hok as <-. destruct i as [|i]; simpl in Hi.
    + injection Hi as <-. by exists x.
    + by apply (IH ys0 i).
Qed.


Lemma marker_of_ok {F} `{FloatLike F} colors (mn mx : Z) top row (m : marker F) :
  marker_of colors mn mx top row = Ok m ->
  is_Some (m_incident_counts row) /\
  radius m = scale_marker_size (m_count row) mn mx /\
  popup_total m = m_count row /\
  popup_zip m = m_zip_code row /\
  fill_color m = default gray (colors !! m_type_of_incident row) /\
  layer m = (if decide (m_type_of_incident row ∈ top)
             then Some (m_type_of_incident row) else None).
Proof.
  unfold marker_of. destruct (m_incident_counts row) as [d|]; [|done].
  intros [= <-]. simpl. eauto 10.
Qed.




(** The fill color of a marker is decided by the place of its incident type
    among the distinct types of the frame, in order of first appearance: the
    color of the specification's formula for that place when it is below
    50, the gray otherwise.  The fallback of [colors.get] is never used. *)
Theorem marker_color_by_first_appearance md (ms : list (marker float)) :
  incident_markers md = Ok ms ->
  forall (i j : nat) m row,
    ms !! i = Some m -> md !! i = Some row ->
    unique (m_type_of_incident <$> md) !! j = Some (m_type_of_incident row) ->
    ((j < 50)%nat -> spec_color j = Some (fill_color m)) /\
    ((50 <= j)%nat -> fill_color m = gray).
Proof.
  unfold incident_markers. set (u := unique (m_type_of_incident <$> md)).
  destruct (generate_colors_lookup u) as (colors & -> & Hlook).
  destruct (min_count md) as [mn|]; [|intros [= <-]; by intros [|?] ? ? ? ?].
  destruct (max_count md) as [mx|]; [|intros [= <-]; by intros [|?] ? ? ? ?].
  intros Hok i j m row Hm Hrow Hj.
  destruct (map_rows_lookup _ _ _ i m Hok Hm) as (row' & Hrow' & Hmk).
  rewrite Hrow in Hrow'. injection Hrow' as <-.
  apply marker_of_ok in Hmk as (_ & _ & _ & _ & Hcol & _).
  rewrite Hcol, Hlook. clear Hcol.
  pose proof (NoDup_unique (m_type_of_incident <$> md)) as Hnd. fold u in Hnd.
  set (t := m_type_of_incident row) in *.
  split.
  - intros Hlt. rewrite decide_False.
    + rewrite (last_index_lookup t (take 50 u) j).
      * simpl. destruct (hex_color_b64 j Hlt) as [[hex Hhex] Heq].
        rewrite <- Heq, Hhex. done.
      * by rewrite lookup_take_lt.
      * intros k Hk Hkt. destruct (decide (k < 50)%nat).
        -- rewrite lookup_take_lt in Hkt by done.
           pose proof (NoDup_lookup _ _ _ _ Hnd Hj Hkt). lia.
        -- by rewrite lookup_take_ge in Hkt by lia.
    + intros Hin. apply list_elem_of_lookup in Hin as [k Hk].
      rewrite lookup_drop in Hk.
      pose proof (NoDup_lookup _ _ _ _ Hnd Hj Hk). lia.
  - intros Hge. rewrite decide_True; [done|].
    apply list_elem_of_lookup. exists (j - 50)%nat. rewrite lookup_drop.
    by replace (50 + (j - 50))%nat with j by lia.
Qed.

Lemma marker_color_by_first_appearance_witness :
  ((1 < 50)%nat -> spec_color 1 = Some "#2d63e5"%string) /\
  ((50 <= 1)%nat -> "#2d63e5"%string = gray).
Proof.
  apply (marker_color_by_first_appearance
           [MapRow 1 "A" 5 (Some []) PyNone PyNone;
            MapRow 2 "B" 30 (Some []) PyNone PyNone]
           [Marker (PyNone, PyNone) (Some 5%float) "#cc3d3d" 1 5 [] (Some "A"%string);
            Marker (PyNone, PyNone) (Some 30%float) "#2d63e5" 2 30 [] (Some "B"%string)]
           ltac:(vm_compute; reflexivity) 1%nat 1%nat
           (Marker (PyNone, PyNone) (Some 30%float) "#2d63e5" 2 30 [] (Some "B"%string))
           (MapRow 2 "B" 30 (Some []) PyNone PyNone)); reflexivity.
Defined.

End MarkerListFacts.

(** ** The map of the prepared rows *)

Section PreparedMapFacts.






End PreparedMapFacts.

(** ** The palette *)

Section PaletteFacts.

Implicit Types (t : string) (types : list string) (colors : gmap string string).

Lemma palette_distinct :
  NoDup (gray :: omap spec_color (seq 0 50)) /\
  length (omap spec_color (seq 0 50)) = 50%nat.
Proof.
  split; [|vm_compute; reflexivity].
  apply (bool_decide_unpack _). vm_compute. reflexivity.
Qed.

Lemma palette_shape :
  forallb (fun c => (Nat.eqb (String.length c) 7 &&
                     match c with String "#" _ => true | _ => false end)%bool)
    (gray :: omap spec_color (seq 0 50)) = true.
Proof. vm_compute. reflexivity. Qed.

Lemma spec_color_palette (i : nat) :
  (i < 50)%nat -> exists c, spec_color i = Some c /\ omap spec_color (seq 0 50) !! i = Some c.
Proof.
  intros Hi. destruct (hex_color_b64 i Hi) as [[c Hc] Heq].
  rewrite Heq in Hc. exists c. split; [done|].
  assert (Hall : Forall (fun j => is_Some (spec_color j)) (seq 0 50)).
  { apply Forall_forall. intros j Hj. apply list_elem_of_In, in_seq in Hj.
    destruct (hex_color_b64 j) as [[c' Hc'] Heq']; [lia|]. rewrite <- Heq'. by eexists. }
  assert (Hgen : forall (l : list nat), Forall (fun j => is_Some (spec_color j)) l ->
            omap spec_color l !! i = l !! i ≫= spec_color).
  { clear. intros l Hl. revert i. induction Hl as [|j l [c Hj] _ IH]; intros i; [done|].
    csimpl. rewrite Hj. destruct i as [|i]; simpl; [by rewrite Hj|apply IH]. }
  rewrite (Hgen _ Hall). rewrite lookup_seq_lt by done. simpl. done.
Qed.

Lemma generate_lookup_NoDup types colors (i : nat) t :
  NoDup types ->
  generate_colors_for_incident_types (F:=float) types 50 = Some colors ->
  types !! i = Some t ->
  colors !! t = if decide (i < 50)%nat then spec_color i else Some gray.
Proof.
  intros Hnd Hgen Hi.
  destruct (generate_colors_lookup types) as (colors' & Hgen' & Hlook).
  rewrite Hgen in Hgen'. injection Hgen' as <-. rewrite Hlook.
  destruct (decide (i < 50)%nat) as [Hlt|Hge].
  - rewrite decide_False.
    + rewrite (last_index_lookup t (take 50 types) i); [done| |].
      * by rewrite lookup_take_lt.
      * intros k Hk Hkt. destruct (decide (k < 50)%nat).
        -- rewrite lookup_take_lt in Hkt by done.
           pose proof (NoDup_lookup _ _ _ _ Hnd Hi Hkt). lia.
        -- by rewrite lookup_take_ge in Hkt by lia.
    + intros Hin. apply list_elem_of_lookup in Hin as [k Hk].
      rewrite lookup_drop in Hk. pose proof (NoDup_lookup _ _ _ _ Hnd Hi Hk). lia.
  - rewrite decide_True; [done|].
    apply list_elem_of_lookup. exists (i - 50)%nat. rewrite lookup_drop.
    by replace (50 + (i - 50))%nat with i by lia.
Qed.

(** Distinct incident types get distinct colors: in a list without repeats,
    the first fifty types have fifty different colors, and none of these is
    the gray of the remaining types. *)
Theorem distinct_types_distinct_colors types colors (i j : nat) t1 t2 :
  NoDup types ->
  generate_colors_for_incident_types (F:=float) types 50 = Some colors ->
  types !! i = Some t1 -> types !! j = Some t2 ->
  (i < 50)%nat -> i <> j ->
  is_Some (colors !! t1) /\ colors !! t1 <> colors !! t2 /\ colors !! t1 <> Some gray.
Proof.
  intros Hnd Hgen Hi Hj Hlt Hne.
  rewrite (generate_lookup_NoDup types colors i t1 Hnd Hgen Hi).
  rewrite (generate_lookup_NoDup types colors j t2 Hnd Hgen Hj).
  rewrite decide_True by done.
  destruct (spec_color_palette i Hlt) as (c1 & Hc1 & Hp1). rewrite Hc1.
  destruct palette_distinct as [Hpal _]. apply NoDup_cons in Hpal as [Hgray Hpal].
  split; [by eexists|]. split.
  - destruct (decide (j < 50)%nat) as [Hj50|Hj50].
    + destruct (spec_color_palette j Hj50) as (c2 & Hc2 & Hp2). rewrite Hc2.
      intros [= ->]. apply Hne. by apply (NoDup_lookup _ _ _ _ Hpal Hp1 Hp2).
    + intros [= ->]. apply Hgray. by apply list_elem_of_lookup_2 in Hp1.
  - intros [= ->]. apply Hgray. by apply list_elem_of_lookup_2 in Hp1.
Qed.

Lemma distinct_types_distinct_colors_witness :
  exists colors,
    generate_colors_for_incident_types (F:=float) ["A"; "B"]%string 50 = Some colors /\
    colors !! "A"%string <> colors !! "B"%string.
Proof.
  eexists. split; [vm_compute; reflexivity|].
  apply (distinct_types_distinct_colors ["A"; "B"]%string _ 0 1 "A"%string "B"%string).
  - apply (bool_decide_unpack _). vm_compute. reflexivity.
  - vm_compute. reflexivity.
  - reflexivity.
  - reflexivity.
  - lia.
  - lia.
Defined.

(** Every incident type of the list gets a color, and every color handed
    out is a seven-character string that starts with "#". *)
Theorem colors_well_formed types :
  exists colors,
    generate_colors_for_incident_types (F:=float) types 50 = Some colors /\
    (forall t, t ∈ types <-> is_Some (colors !! t)) /\
    (forall t c, colors !! t = Some c ->
       String.length c = 7%nat /\ exists rest, c = String "#" rest).
Proof.
  destruct (generate_colors_lookup types) as (colors & Hgen & Hlook).
  exists colors. split; [done|].
  assert (Hidx : forall t (j : nat), last_index t (take 50 types) = Some j ->
            (j < 50)%nat /\ t ∈ types).
  { intros t j. generalize (length_take types 50).
    assert (Hsub : forall x, x ∈ take 50 types -> x ∈ types).
    { intros x Hx. apply list_elem_of_lookup in Hx as [k Hk].
      apply lookup_take_Some in Hk as [Hk _]. by apply list_elem_of_lookup_2 in Hk. }
    revert Hsub. generalize (take 50 types). intros l Hsub Hlen Hj.
    assert (Hj' : (j < length l)%nat /\ t ∈ l).
    { clear -Hj. revert j Hj. induction l as [|x l IH]; simpl; intros j Hj; [done|].
      destruct (last_index t l) as [j'|].
      - injection Hj as <-. destruct (IH j' eq_refl). split; [lia|].
        apply elem_of_cons. by right.
      - destruct (decide (x = t)) as [->|]; [|done]. injection Hj as <-.
        split; [lia|]. apply elem_of_cons. by left. }
    destruct Hj' as [Hlt Hin]. split; [lia|by apply Hsub]. }
  split.
  - intros t. rewrite Hlook. split.
    + intros Hin. destruct (decide (t ∈ drop 50 types)); [by eexists|].
      destruct (last_index t (take 50 types)) as [j|] eqn:Hj.
      * simpl. destruct (Hidx t j Hj) as [Hlt _].
        destruct (spec_color_palette j Hlt) as (c & -> & _). by eexists.
      * apply last_index_None in Hj. destruct Hj.
        rewrite <- (take_drop 50 types) in Hin.
        apply elem_of_app in Hin as [?|?]; done.
    + destruct (decide (t ∈ drop 50 types)) as [Hin|_].
      * intros _. apply list_elem_of_lookup in Hin as [k Hk].
        rewrite lookup_drop in Hk. by apply list_elem_of_lookup_2 in Hk.
      * destruct (last_index t (take 50 types)) as [j|] eqn:Hj; [|by intros [? ?]].
        intros _. by apply (Hidx t j).
  - intros t c. rewrite Hlook. intros Hc.
    assert (Hin : c ∈ gray :: omap spec_color (seq 0 50)).
    { destruct (decide (t ∈ drop 50 types)).
      - injection Hc as <-. apply elem_of_cons. by left.
      - destruct (last_index t (take 50 types)) as [j|] eqn:Hj; [|done]. simpl in Hc.
        destruct (Hidx t j Hj) as [Hlt _].
        destruct (spec_color_palette j Hlt) as (c' & Hc' & Hp).
        rewrite Hc in Hc'. injection Hc' as <-.
        apply elem_of_cons. right. by apply list_elem_of_lookup_2 in Hp. }
    pose proof palette_shape as Hshape. rewrite forallb_forall in Hshape.
    specialize (Hshape c (proj1 (list_elem_of_In _ _) Hin)).
    apply andb_true_iff in Hshape as [Hlen Hhash].
    split; [by apply Nat.eqb_eq|].
    destruct c as [|a rest]; [done|].
    destruct (Ascii.ascii_dec a "#") as [->|Hne]; [by eexists|].
    exfalso. revert Hhash.
    destruct a as [[] [] [] [] [] [] [] []]; try done.
Qed.

End PaletteFacts.

(** ** The classifier *)

Section ClassifierFacts.

#[local] Open Scope string_scope.

Lemma upper_ascii_recase (c : ascii) :
  upper_ascii (upper_ascii c) = upper_ascii c /\
  upper_ascii (lower_ascii c) = upper_ascii c.
Proof. destruct c as [[] [] [] [] [] [] [] []]; split; reflexivity. Qed.

Lemma str_upper_recase (s : string) :
  str_upper (str_upper s) = str_upper s /\ str_upper (str_lower s) = str_upper s.
Proof.
  induction s as [|c s [IH1 IH2]]; [done|]. simpl.
  destruct (upper_ascii_recase c) as [-> ->]. by rewrite IH1, IH2.
Qed.

(** The classification ignores the case of ASCII letters: an incident type
    and its upper-case and lower-case forms are classified alike. *)
Theorem classification_ignores_case (raw_type : string) :
  classify (str_upper raw_type) = classify raw_type /\
  classify (str_lower raw_type) = classify raw_type /\
  (forall r, type_of_incident r = raw_type ->
     property_mask r = bool_decide (classify raw_type = Some property_crime)).
Proof.
  unfold classify. destruct (str_upper_recase raw_type) as [-> ->].
  split; [done|]. split; [done|]. intros r <-. unfold property_mask.
  by destruct (existsb _ property_keywords).
Qed.

Lemma string_app_assoc (s t u : string) : (s ++ t) ++ u = s ++ t ++ u.
Proof.
  induction s as [|a s IH]; [done|].
  change (String a ((s ++ t) ++ u) = String a (s ++ t ++ u)). by rewrite IH.
Qed.

(** The keyword "AUTO THEFT" never decides: whatever contains it contains
    "THEFT", so the mask is the same without it. *)
Theorem auto_theft_keyword_redundant (r : incident) :
  property_mask r =
    existsb (fun kw => str_contains kw (str_upper (type_of_incident r)))
      (filter (fun kw => kw <> "AUTO THEFT") property_keywords).
Proof.
  unfold property_mask. set (s := str_upper (type_of_incident r)).
  assert (Himp : str_contains "AUTO THEFT" s = true -> str_contains "THEFT" s = true).
  { rewrite !str_contains_spec. intros (pre & post & ->).
    exists (pre ++ "AUTO "), post. by rewrite string_app_assoc. }
  change (filter (fun kw => kw <> "AUTO THEFT") property_keywords) with
    [ "BURGLARY"; "THEFT"; "ROBBERY"; "STOLEN"; "BREAKING"; "ENTERING";
      "LARCENY"; "EMBEZZLEMENT"; "CRIMINAL MISCHIEF"; "VANDALISM"; "SHOPLIFTING" ].
  unfold property_keywords. cbn [existsb].
  destruct (str_contains "AUTO THEFT" s) eqn:Hauto.
  - rewrite (Himp eq_refl). by rewrite !orb_true_r.
  - done.
Qed.

End ClassifierFacts.
